(** * eigenphi/builder: relay client, greedy merge loop and backtest loader

    A shallow embedding of three pieces of the builder:
    - package [builder]: the remote relay client ([RemoteRelay]) with its
      validator registry, header retrieval and block submission;
    - package [miner]: the greedy merge loop [mergeOrdersIntoEnvDiff];
    - package [backtest]: the fixture loader [PendingTxsFromFile].

    Go integers are carried as [Z]; a [uint64] is a [Z] in [0, 2^64).
    Go maps are stdpp [gmap]s.  Calls that leave the process (HTTP requests,
    the local relay, the speculative environment) are explicit: their
    outcomes are inputs of the functions and the calls that were made are
    returned as a trace of events. *)

From Stdlib Require Import ZArith List Bool Ascii String Lia.
From stdpp Require Import gmap strings list.

Local Open Scope Z_scope.

(* ===================================================================== *)
(** * Package builder: the remote relay                                   *)
(* ===================================================================== *)

Module builder.

(** [boostTypes.Address]: a 20-byte array. *)
Definition Address := list Byte.byte.

(** [ValidatorData], as it is built in [getSlotValidatorMapFromRelay]. *)
Record ValidatorData := mkValidatorData {
  Pubkey : string;
  FeeRecipient : Address;
  GasLimit : Z
}.

(** The zero value [ValidatorData{}]. *)
Definition zeroValidatorData : ValidatorData :=
  {| Pubkey := EmptyString;
     FeeRecipient := repeat Byte.x00 20;
     GasLimit := 0 |}.

(** Go [error] values that the relay client makes or passes on. *)
Inductive error :=
| ErrValidatorNotFound
    (* the package-level sentinel [ErrValidatorNotFound] *)
| ErrSyncOngoing
    (* errors.New("sync is ongoing") *)
| ErrExternal (msg : string)
    (* an error made outside this file: by SendHTTPRequest, by the local relay *)
| ErrNonOkValidators (code : Z)
    (* fmt.Errorf("non-ok response code %d from relay", code) *)
| ErrGetHeaderRequest (endpoint : string) (slot : Z) (parentHashHex pubkey : string)
                      (cause : error)
    (* fmt.Errorf("error making request to relay %s. err: %w", endpoint+path, err),
       path = /eth/v1/builder/header/slot/parentHashHex/pubkey *)
| ErrSubmitRequest (endpoint : string) (cause : error)
    (* fmt.Errorf("error sending http request to relay %s. err: %w", endpoint, err) *)
| ErrSubmitNonOk (code : Z) (endpoint : string).
    (* fmt.Errorf("non-ok response code %d from relay %s", code, endpoint) *)

(** One element of [GetValidatorRelayResponse]. *)
Record RelayEntry := mkRelayEntry {
  entry_Slot : Z;
  entry_FeeRecipient : string;
  entry_GasLimit : Z;
  entry_Timestamp : Z;
  entry_Pubkey : string;
  entry_Signature : string
}.

(** What [server.SendHTTPRequest] hands back: the status code, the error and
    the decoded destination. *)
Record HTTPResult (A : Type) := mkHTTPResult {
  http_code : Z;
  http_err : option error;
  http_dst : A
}.
Arguments mkHTTPResult {A} _ _ _.
Arguments http_code {A} _.
Arguments http_err {A} _.
Arguments http_dst {A} _.

(** Library functions used by the decoding of a relay entry; they are not
    part of the repository. *)
Class Libs := {
  hexutil_Decode : string -> option (list Byte.byte);
    (* go-ethereum hexutil.Decode; [None] stands for a non-nil error *)
  Address_FromSlice : list Byte.byte -> Address;
    (* boostTypes.Address.FromSlice, applied to the zero address *)
  strings_ToLower : string -> string
}.

(** The local relay of the same process ([LocalRelay], declared elsewhere in
    the package): the client only calls its [GetValidatorForSlot] and hands
    it submitted blocks. *)
Record LocalRelay := mkLocalRelay {
  local_GetValidatorForSlot : Z -> ValidatorData * option error
}.

Record RemoteRelay := mkRemoteRelay {
  endpoint : string;
  localRelay : option LocalRelay;
  validatorSyncOngoing : bool;
  lastRequestedSlot : Z;
  validatorSlotMap : gmap Z ValidatorData
}.

Definition set_validatorSyncOngoing (b : bool) (r : RemoteRelay) : RemoteRelay :=
  {| endpoint := endpoint r;
     localRelay := localRelay r;
     validatorSyncOngoing := b;
     lastRequestedSlot := lastRequestedSlot r;
     validatorSlotMap := validatorSlotMap r |}.

Definition set_validators (m : gmap Z ValidatorData) (slot : Z) (r : RemoteRelay)
  : RemoteRelay :=
  {| endpoint := endpoint r;
     localRelay := localRelay r;
     validatorSyncOngoing := validatorSyncOngoing r;
     lastRequestedSlot := slot;
     validatorSlotMap := m |}.

(** The two submission payloads, [boostTypes.BuilderSubmitBlockRequest] and
    [capella.SubmitBlockRequest]; the client forwards them unread. *)
Record BuilderSubmitBlockRequest := mkBuilderSubmitBlockRequest {
  bellatrix_payload : string
}.
Record CapellaSubmitBlockRequest := mkCapellaSubmitBlockRequest {
  capella_payload : string
}.

(** [GetHeaderResponse], through the methods [GetHeader] calls on it. *)
Record GetHeaderResponse := mkGetHeaderResponse {
  hdr_IsInvalid : bool;
  hdr_Value : Z;                 (* a *big.Int, in wei *)
  hdr_ParentHash : string;
  hdr_Pubkey : string;
  hdr_TransactionsRoot : string
}.

(** The remote peer, as far as the registry sees it: the outcome of the
    n-th GET of [/relay/v1/builder/validators] issued by this client. *)
Definition Network := nat -> HTTPResult (list RelayEntry).

(** Effects a call leaves behind, in program order. *)
Inductive event :=
| EvGetValidators (n : nat)          (* the n-th validators request was sent *)
| EvSleep                            (* time.Sleep(time.Second) *)
| EvLog (level msg : string)         (* log.Info / Error / Warn / Debug *)
| EvGo (slot : Z) (retries : Z)      (* go func() { r.updateValidatorsMap(slot, retries) } *)
| EvLocalSubmitBlock (msg : BuilderSubmitBlockRequest)
    (* r.localRelay.submitBlock(msg) *)
| EvLocalSubmitBlockCapella (msg : CapellaSubmitBlockRequest).
    (* r.localRelay.submitBlockCapella(msg) *)

Section WithLibs.
Context `{Libs}.

(** The loop body of [getSlotValidatorMapFromRelay]: one entry is decoded
    and stored, or skipped when its fee recipient does not decode. *)
Definition addEntry (res : gmap Z ValidatorData) (data : RelayEntry)
  : gmap Z ValidatorData :=
  match hexutil_Decode (entry_FeeRecipient data) with
  | None => res
  | Some feeRecipientBytes =>
      <[ entry_Slot data :=
           {| Pubkey := strings_ToLower (entry_Pubkey data);
              FeeRecipient := Address_FromSlice feeRecipientBytes;
              GasLimit := entry_GasLimit data |} ]> res
  end.

(** [getSlotValidatorMapFromRelay], from the outcome of its request. *)
Definition getSlotValidatorMapFromRelay (resp : HTTPResult (list RelayEntry))
  : error + gmap Z ValidatorData :=
  match http_err resp with
  | Some err => inl err
  | None =>
      if 299 <? http_code resp then inl (ErrNonOkValidators (http_code resp))
      else inr (fold_left addEntry (http_dst resp) ∅)
  end.

(** The retry loop of [updateValidatorsMap]:
    [for err != nil && retries > 0 { sleep; fetch again; retries -= 1 }].
    [n] counts the validators requests sent so far. *)
Fixpoint retryFetch (net : Network) (retries : nat) (n : nat)
    (cur : error + gmap Z ValidatorData)
  : (error + gmap Z ValidatorData) * nat * list event :=
  match cur, retries with
  | inl _, S retries' =>
      let '(res, n', evs) :=
        retryFetch net retries' (S n) (getSlotValidatorMapFromRelay (net n)) in
      (res, n',
       EvLog "error" "could not get validators map from relay, retrying"
         :: EvSleep :: EvGetValidators n :: evs)
  | _, _ => (cur, n, [])
  end.

(** [updateValidatorsMap].  Returns the relay after the call, the returned
    error, the number of validators requests sent so far and the events. *)
Definition updateValidatorsMap (net : Network) (n : nat) (r : RemoteRelay)
    (currentSlot : Z) (retries : Z)
  : RemoteRelay * option error * nat * list event :=
  if validatorSyncOngoing r then (r, Some ErrSyncOngoing, n, [])
  else
    let r1 := set_validatorSyncOngoing true r in
    let first := getSlotValidatorMapFromRelay (net n) in
    let '(res, n', evs) := retryFetch net (Z.to_nat retries) (S n) first in
    let r2 := set_validatorSyncOngoing false r1 in
    let pre := EvLog "info" "requesting " :: EvGetValidators n :: evs in
    match res with
    | inl err =>
        (r2, Some err, n',
         pre ++ [EvLog "error" "could not get validators map from relay"])
    | inr newMap =>
        (set_validators newMap currentSlot r2, None, n',
         pre ++ [EvLog "info" "Updated validators"])
    end.

(** [NewRemoteRelay]. *)
Definition NewRemoteRelay (net : Network) (n : nat)
    (endpoint : string) (localRelay : option LocalRelay)
  : RemoteRelay * nat * list event :=
  let r := {| endpoint := endpoint;
              localRelay := localRelay;
              validatorSyncOngoing := false;
              lastRequestedSlot := 0;
              validatorSlotMap := ∅ |} in
  let '(r', err, n', evs) := updateValidatorsMap net n r 0 3 in
  match err with
  | Some _ =>
      (r', n',
       evs ++ [EvLog "error" "could not connect to remote relay, continuing anyway"])
  | None => (r', n', evs)
  end.

(** The body of the goroutine started by [GetValidatorForSlot]. *)
Definition refreshInBackground (net : Network) (n : nat) (r : RemoteRelay)
    (nextSlot : Z) (retries : Z)
  : RemoteRelay * nat * list event :=
  let '(r', err, n', evs) := updateValidatorsMap net n r nextSlot retries in
  match err with
  | Some _ => (r', n', evs ++ [EvLog "error" "could not update validators map"])
  | None => (r', n', evs)
  end.

End WithLibs.

Definition http_StatusNoContent : Z := 204.

Definition emptyListTxRoot : string :=
  "0x7ffe241ea60187fdb0187bfa22de35d1f9bed7ab061d9401fd47e34a54fbede1".

(** The guard of [GetValidatorForSlot]:
    [r.lastRequestedSlot == 0 || nextSlot/32 > r.lastRequestedSlot/32]. *)
Definition refreshDue (r : RemoteRelay) (nextSlot : Z) : bool :=
  (lastRequestedSlot r =? 0) || (lastRequestedSlot r / 32 <? nextSlot / 32).

(** [GetValidatorForSlot].  The goroutine it may start is the event
    [EvGo nextSlot 1]; its body does not run inside the call. *)
Definition GetValidatorForSlot (r : RemoteRelay) (nextSlot : Z)
  : ValidatorData * option error * list event :=
  let started := if refreshDue r nextSlot then [EvGo nextSlot 1] else [] in
  let remote :=
    match validatorSlotMap r !! nextSlot with
    | Some vd => (vd, None, started)
    | None => (zeroValidatorData, Some ErrValidatorNotFound, started)
    end in
  match localRelay r with
  | Some l =>
      match local_GetValidatorForSlot l nextSlot with
      | (localValidator, None) =>
          (localValidator, None,
           started ++
           [EvLog "info" "Validator registration overwritten by local data"])
      | (_, Some _) => remote
      end
  | None => remote
  end.

(** [GetHeader], from the outcome of its request. *)
Definition GetHeader (r : RemoteRelay) (slot : Z) (parentHashHex pubkey : string)
    (resp : HTTPResult GetHeaderResponse)
  : option error * list event :=
  let pre := [EvLog "info" "get header from remote relay"] in
  match http_err resp with
  | Some err =>
      (Some (ErrGetHeaderRequest (endpoint r) slot parentHashHex pubkey err),
       pre ++ [EvLog "error" "error making request to relay"])
  | None =>
      if http_code resp =? http_StatusNoContent then
        (None, pre ++ [EvLog "info" "no-content response"])
      else
        let responsePayload := http_dst resp in
        if hdr_IsInvalid responsePayload then (None, pre)
        else
          let pre := pre ++ [EvLog "info" "get bid from remote relay"] in
          let isZeroValue := hdr_Value responsePayload =? 0 in
          let isEmptyListTxRoot :=
            String.eqb (hdr_TransactionsRoot responsePayload) emptyListTxRoot in
          if isZeroValue || isEmptyListTxRoot then
            (None, pre ++ [EvLog "warn" "ignoring bid with 0 value"])
          else (None, pre ++ [EvLog "debug" "bid received"])
  end.

(** [SubmitBlock], from the outcome of its POST. *)
Definition SubmitBlock (r : RemoteRelay) (msg : BuilderSubmitBlockRequest)
    (_ : ValidatorData) (resp : HTTPResult unit)
  : option error * list event :=
  let pre := [EvLog "info" "submitting block to remote relay"] in
  match http_err resp with
  | Some err => (Some (ErrSubmitRequest (endpoint r) err), pre)
  | None =>
      if 299 <? http_code resp then
        (Some (ErrSubmitNonOk (http_code resp) (endpoint r)), pre)
      else
        match localRelay r with
        | Some _ => (None, pre ++ [EvLocalSubmitBlock msg])
        | None => (None, pre)
        end
  end.

(** [SubmitBlockCapella], from the outcome of its POST. *)
Definition SubmitBlockCapella (r : RemoteRelay) (msg : CapellaSubmitBlockRequest)
    (_ : ValidatorData) (resp : HTTPResult unit)
  : option error * list event :=
  let pre := [EvLog "info" "submitting block to remote relay"] in
  match http_err resp with
  | Some err => (Some (ErrSubmitRequest (endpoint r) err), pre)
  | None =>
      if 299 <? http_code resp then
        (Some (ErrSubmitNonOk (http_code resp) (endpoint r)), pre)
      else
        match localRelay r with
        | Some _ => (None, pre ++ [EvLocalSubmitBlockCapella msg])
        | None => (None, pre)
        end
  end.

(** ** Below [server.SendHTTPRequest]

    [SendHTTPRequest] belongs to the mev-boost library.  What it returns is
    decided by what happens to the request: it may get no answer at all, or
    an answer with a status code and a body, which may be lost while it is
    read, fail to decode into the destination, or decode. *)
Inductive answerBody (A : Type) :=
| BodyLost (err : error)          (* reading the body failed *)
| BodyUndecodable (err : error)   (* the body is not JSON of the destination's shape *)
| BodyDecoded (dst : A).
Arguments BodyLost {A} _.
Arguments BodyUndecodable {A} _.
Arguments BodyDecoded {A} _.

Inductive exchange (A : Type) :=
| NoAnswer (err : error)
    (* the request could not be built or sent, or no answer came *)
| Answer (status : Z) (body : answerBody A).
Arguments NoAnswer {A} _.
Arguments Answer {A} _ _.

(** [server.SendHTTPRequest] with a destination: no answer gives the code 0
    and the error; the status 204 is returned at once without an error; a
    status above 299 is an error; otherwise the body is read and decoded
    into the destination, and a failure of either is an error.  [dst0] is
    the destination as the caller made it. *)
Definition SendHTTPRequest {A : Type} (dst0 : A) (x : exchange A) : HTTPResult A :=
  match x with
  | NoAnswer err => mkHTTPResult 0 (Some err) dst0
  | Answer status body =>
      if status =? http_StatusNoContent then mkHTTPResult status None dst0
      else if 299 <? status then
        mkHTTPResult status (Some (ErrExternal "HTTP error response")) dst0
      else
        match body with
        | BodyLost err => mkHTTPResult status (Some err) dst0
        | BodyUndecodable err => mkHTTPResult status (Some err) dst0
        | BodyDecoded dst => mkHTTPResult status None dst
        end
  end.

(** The request itself failed: no answer came, or the answer was lost while
    its body was read. *)
Definition transportFailed {A : Type} (x : exchange A) : bool :=
  match x with
  | NoAnswer _ => true
  | Answer status (BodyLost _) => negb (status =? http_StatusNoContent)
  | Answer _ _ => false
  end.

(** What the local relay answers for a slot, when one is configured and its
    lookup returns no error. *)
Definition localRegistration (r : RemoteRelay) (nextSlot : Z) : option ValidatorData :=
  match localRelay r with
  | Some l =>
      match local_GetValidatorForSlot l nextSlot with
      | (localValidator, None) => Some localValidator
      | (_, Some _) => None
      end
  | None => None
  end.

(** A status code of the 2xx class. *)
Definition is2xx (code : Z) : bool := (200 <=? code) && (code <=? 299).

(** The events of a call that reach the remote peer or wait for it. *)
Definition touchesNetwork (e : event) : bool :=
  match e with
  | EvGetValidators _ | EvSleep => true
  | _ => false
  end.

(** ** A relay in use

    A relay is built once and then used by lookups, while the goroutines
    the lookups start run in between.  [sys_lookups] counts the calls of
    [GetValidatorForSlot] made so far and [sys_pending] holds the refreshes
    started and not yet run. *)
Record System := mkSystem {
  sys_relay : RemoteRelay;
  sys_sent : nat;
  sys_pending : list (Z * Z);
  sys_lookups : nat
}.

Inductive action :=
| ActLookup (nextSlot : Z)   (* a caller runs GetValidatorForSlot *)
| ActRunRefresh.             (* the oldest pending goroutine runs to its end *)

Fixpoint startedBy (evs : list event) : list (Z * Z) :=
  match evs with
  | [] => []
  | EvGo slot retries :: evs' => (slot, retries) :: startedBy evs'
  | _ :: evs' => startedBy evs'
  end.

Section Running.
Context `{Libs}.

Definition boot (net : Network) (endpoint : string) (l : option LocalRelay)
  : System :=
  let '(r, n, _) := NewRemoteRelay net 0%nat endpoint l in
  {| sys_relay := r; sys_sent := n; sys_pending := []; sys_lookups := 0 |}.

Definition step (net : Network) (s : System) (a : action) : System :=
  match a with
  | ActLookup nextSlot =>
      let '(_, _, evs) := GetValidatorForSlot (sys_relay s) nextSlot in
      {| sys_relay := sys_relay s;
         sys_sent := sys_sent s;
         sys_pending := sys_pending s ++ startedBy evs;
         sys_lookups := S (sys_lookups s) |}
  | ActRunRefresh =>
      match sys_pending s with
      | [] => s
      | (slot, retries) :: rest =>
          let '(r', n', _) :=
            refreshInBackground net (sys_sent s) (sys_relay s) slot retries in
          {| sys_relay := r';
             sys_sent := n';
             sys_pending := rest;
             sys_lookups := sys_lookups s |}
      end
  end.

Definition run (net : Network) (s : System) (acts : list action) : System :=
  fold_left (step net) acts s.

End Running.

(** ** The phases of a refresh

    [updateValidatorsMap] holds the lock twice and fetches in between.  The
    part under the first lock (lines 65-71) and the part under the second
    (lines 81-94) are given on their own, to speak of a refresh in flight. *)
Definition beginRefresh (r : RemoteRelay) : error + RemoteRelay :=
  if validatorSyncOngoing r then inl ErrSyncOngoing
  else inr (set_validatorSyncOngoing true r).

Definition finishRefresh (r : RemoteRelay) (currentSlot : Z)
    (res : error + gmap Z ValidatorData)
  : RemoteRelay * option error * list event :=
  let r2 := set_validatorSyncOngoing false r in
  match res with
  | inl err =>
      (r2, Some err, [EvLog "error" "could not get validators map from relay"])
  | inr newMap =>
      (set_validators newMap currentSlot r2, None,
       [EvLog "info" "Updated validators"])
  end.

Section Decoding.
Context `{Libs}.

(** What the loop of [getSlotValidatorMapFromRelay] stores for an entry, when
    it stores one. *)
Definition decodeEntry (data : RelayEntry) : option ValidatorData :=
  match hexutil_Decode (entry_FeeRecipient data) with
  | None => None
  | Some feeRecipientBytes =>
      Some {| Pubkey := strings_ToLower (entry_Pubkey data);
              FeeRecipient := Address_FromSlice feeRecipientBytes;
              GasLimit := entry_GasLimit data |}
  end.

(** The registrations a response carries for a slot, in response order. *)
Definition registrationsFor (slot : Z) (entries : list RelayEntry)
  : list ValidatorData :=
  omap (fun data =>
          if decide (entry_Slot data = slot) then decodeEntry data else None)
       entries.

End Decoding.

Definition isGetValidators (e : event) : bool :=
  match e with EvGetValidators _ => true | _ => false end.
Definition isSleep (e : event) : bool :=
  match e with EvSleep => true | _ => false end.

Fixpoint countEvents (p : event -> bool) (evs : list event) : nat :=
  match evs with
  | [] => O
  | e :: evs' => ((if p e then 1 else 0) + countEvents p evs')%nat
  end.

End builder.

(* ===================================================================== *)
(** * Package miner: the greedy merge loop                                *)
(* ===================================================================== *)

Module miner.

(** The [int] that [commitTx] returns next to its receipt and error, as the
    [switch] of the merge loop reads it: one of the package constants
    [shiftTx] and [popTx], or any other value. *)
Inductive skipKind :=
| shiftTx
| popTx
| skipOther (v : Z).

Section Merge.

(** Types and operations the loop uses and this file does not define:
    transactions, bundles and the ordered supply come from [core/types],
    [commitTx] and [commitBundle] from the environment diff. *)
Context {Transaction SimulatedBundle Receipt commitError : Type}.
Context {environmentDiff chainData interruptFlag Orders : Type}.

(** An order of the supply, through its accessors [Tx()] and [Bundle()];
    [None] is a nil pointer. *)
Record TxWithMinerFee := mkOrder {
  Tx : option Transaction;
  Bundle : option SimulatedBundle
}.

Context (Peek : Orders -> option TxWithMinerFee).
Context (Shift Pop : Orders -> Orders).
Context (commitTx :
  environmentDiff -> Transaction -> chainData ->
  environmentDiff * (option Receipt * skipKind * option commitError)).
Context (commitBundle :
  environmentDiff -> SimulatedBundle -> chainData -> interruptFlag ->
  environmentDiff * option commitError).

Record greedyBuilder := mkGreedyBuilder {
  builder_chainData : chainData;
  builder_interrupt : interruptFlag
}.

(** Calls the loop makes on its collaborators, in program order. *)
Inductive call :=
| CallCommitTx (tx : Transaction)
| CallCommitBundle (bundle : SimulatedBundle)
| CallShift
| CallPop
| CallTrace (msg : string).

(** The variables of [mergeOrdersIntoEnvDiff] that live across iterations. *)
Record loopState := mkLoopState {
  ls_envDiff : environmentDiff;
  ls_orders : Orders;
  ls_usedBundles : list SimulatedBundle;
  ls_txCount : Z;
  ls_bundleCount : Z
}.

(** [switch skip { case shiftTx: orders.Shift(); case popTx: orders.Pop() }] *)
Definition applySkip (skip : skipKind) (orders : Orders) : Orders * list call :=
  match skip with
  | shiftTx => (Shift orders, [CallShift])
  | popTx => (Pop orders, [CallPop])
  | skipOther _ => (orders, [])
  end.

(** One pass through the body of the [for] loop: [None] is the [break],
    [Some] carries the state the next pass starts from and the calls made. *)
Definition iteration (b : greedyBuilder) (st : loopState)
  : option (loopState * list call) :=
  match Peek (ls_orders st) with
  | None => None
  | Some order =>
      match Tx order with
      | Some tx =>
          let '(envDiff', (receipt, skip, err)) :=
            commitTx (ls_envDiff st) tx (builder_chainData b) in
          let '(orders', moved) := applySkip skip (ls_orders st) in
          let st' := {| ls_envDiff := envDiff';
                        ls_orders := orders';
                        ls_usedBundles := ls_usedBundles st;
                        ls_txCount := ls_txCount st + 1;
                        ls_bundleCount := ls_bundleCount st |} in
          match err with
          | Some _ =>
              Some (st', CallCommitTx tx :: moved ++ [CallTrace "could not apply tx"])
          | None => Some (st', CallCommitTx tx :: moved)
          end
      | None =>
          match Bundle order with
          | Some bundle =>
              let '(envDiff', err) :=
                commitBundle (ls_envDiff st) bundle
                  (builder_chainData b) (builder_interrupt b) in
              let orders' := Pop (ls_orders st) in
              match err with
              | Some _ =>
                  Some ({| ls_envDiff := envDiff';
                           ls_orders := orders';
                           ls_usedBundles := ls_usedBundles st;
                           ls_txCount := ls_txCount st;
                           ls_bundleCount := ls_bundleCount st + 1 |},
                        [CallCommitBundle bundle; CallPop;
                         CallTrace "Could not apply bundle"])
              | None =>
                  Some ({| ls_envDiff := envDiff';
                           ls_orders := orders';
                           ls_usedBundles := ls_usedBundles st ++ [bundle];
                           ls_txCount := ls_txCount st;
                           ls_bundleCount := ls_bundleCount st + 1 |},
                        [CallCommitBundle bundle; CallPop])
              end
          | None => Some (st, [])
          end
      end
  end.

(** The [for] loop, run for at most [fuel] passes: [None] when the loop has
    not reached its [break] by then. *)
Fixpoint mergeLoop (fuel : nat) (b : greedyBuilder) (st : loopState)
  : option (loopState * list call) :=
  match fuel with
  | O => None
  | S fuel' =>
      match iteration b st with
      | None => Some (st, [])
      | Some (st', calls) =>
          match mergeLoop fuel' b st' with
          | Some (final, calls') => Some (final, calls ++ calls')
          | None => None
          end
      end
  end.

(** [mergeOrdersIntoEnvDiff]: the environment diff and the supply are
    changed in place, the used bundles are returned. *)
Definition mergeOrdersIntoEnvDiff (fuel : nat) (b : greedyBuilder)
    (envDiff : environmentDiff) (orders : Orders)
  : option (environmentDiff * Orders * list SimulatedBundle * list call) :=
  match mergeLoop fuel b {| ls_envDiff := envDiff;
                            ls_orders := orders;
                            ls_usedBundles := [];
                            ls_txCount := 0;
                            ls_bundleCount := 0 |} with
  | Some (final, calls) =>
      Some (ls_envDiff final, ls_orders final, ls_usedBundles final, calls)
  | None => None
  end.

(** How often a cursor operation or a commit occurs among the calls. *)
Definition isPop (c : call) : bool :=
  match c with CallPop => true | _ => false end.
Definition isShift (c : call) : bool :=
  match c with CallShift => true | _ => false end.
Definition isCommitBundle (c : call) : bool :=
  match c with CallCommitBundle _ => true | _ => false end.
Fixpoint countCalls (p : call -> bool) (calls : list call) : nat :=
  match calls with
  | [] => O
  | c :: calls' => ((if p c then 1 else 0) + countCalls p calls')%nat
  end.

Definition isCommitTx (c : call) : bool :=
  match c with CallCommitTx _ => true | _ => false end.

(** The bundles handed to [commitBundle], in call order. *)
Fixpoint committedBundles (calls : list call) : list SimulatedBundle :=
  match calls with
  | [] => []
  | CallCommitBundle bundle :: calls' => bundle :: committedBundles calls'
  | _ :: calls' => committedBundles calls'
  end.

End Merge.

End miner.

(* ===================================================================== *)
(** * Package backtest: the pending-transaction fixture                   *)
(* ===================================================================== *)

Module backtest.

(** The first space of a line, if it has one: what is before and after it. *)
Fixpoint cutAtSpace (s : string) : option (string * string) :=
  match s with
  | EmptyString => None
  | String c rest =>
      if Ascii.eqb c " "%char then Some (EmptyString, rest)
      else match cutAtSpace rest with
           | Some (before, after) => Some (String c before, after)
           | None => None
           end
  end.

(** Whether a space occurs in a string. *)
Fixpoint containsSpace (s : string) : bool :=
  match s with
  | EmptyString => false
  | String c rest => Ascii.eqb c " "%char || containsSpace rest
  end.

(** [strings.SplitN(line, " ", 2)]. *)
Definition SplitN2 (line : string) : list string :=
  match cutAtSpace line with
  | Some (before, after) => [before; after]
  | None => [line]
  end.

(** ** The line scanner

    [bufio.NewScanner] with its default split function and buffer, on the
    bytes of a file. *)
Definition newline : ascii := Ascii.ascii_of_nat 10.
Definition carriageReturn : ascii := Ascii.ascii_of_nat 13.

(** The bytes between the newlines of a file; a last line needs no newline,
    and nothing follows a final newline. *)
Fixpoint rawLines (content : string) : list string :=
  match content with
  | EmptyString => []
  | String c rest =>
      if Ascii.eqb c newline then EmptyString :: rawLines rest
      else match rawLines rest with
           | [] => [String c EmptyString]
           | line :: lines => String c line :: lines
           end
  end.

(** [dropCR] of [bufio.ScanLines]: one trailing carriage return is cut. *)
Fixpoint dropCR (s : string) : string :=
  match s with
  | EmptyString => EmptyString
  | String c rest =>
      match rest with
      | EmptyString => if Ascii.eqb c carriageReturn then EmptyString else s
      | String _ _ => String c (dropCR rest)
      end
  end.

(** [bufio.MaxScanTokenSize]: a line has to fit the buffer, so a line of this
    many bytes or more makes [Scan] return false, with the error
    [bufio.ErrTooLong] that only [Err] would tell. *)
Definition MaxScanTokenSize : N := 65536.
Definition tooLong (line : string) : bool :=
  (MaxScanTokenSize <=? N.of_nat (String.length line))%N.

(** The tokens [Scan] and [Text] hand out, from the raw lines: they end at
    the first line that is too long. *)
Fixpoint yieldedTokens (lines : list string) : list string :=
  match lines with
  | [] => []
  | line :: rest =>
      if tooLong line then [] else dropCR line :: yieldedTokens rest
  end.

Definition scannedLines (content : string) : list string :=
  yieldedTokens (rawLines content).

(** A file that is empty or ends in a newline. *)
Fixpoint endsWithNewline (s : string) : bool :=
  match s with
  | EmptyString => true
  | String c rest =>
      match rest with
      | EmptyString => Ascii.eqb c newline
      | String _ _ => endsWithNewline rest
      end
  end.

(** [n] times the byte [c]. *)
Fixpoint replicate (n : nat) (c : ascii) : string :=
  match n with
  | O => EmptyString
  | S n' => String c (replicate n' c)
  end.

Section Loader.

(** [common.Address], [types.Transaction] and Go's [error], with the two
    functions of [common] and [core/types] that the loader calls. *)
Context {Address : Type} `{Countable Address}.
Context {Transaction error : Type}.
Context (HexToAddress : string -> Address).
Context (UnmarshalJSON : string -> error + Transaction).

(** The body of the scanning loop for one line: [inl] is the early
    [return nil, err]. *)
Definition scanLine (result : gmap Address (list Transaction)) (line : string)
  : error + gmap Address (list Transaction) :=
  match SplitN2 line with
  | [fromString; txString] =>
      let from := HexToAddress fromString in
      match UnmarshalJSON txString with
      | inl err => inl err
      | inr tx => inr (<[ from := default [] (result !! from) ++ [tx] ]> result)
      end
  | _ => inr result
  end.

(** [for fileScanner.Scan() { ... }] over the lines the scanner yields. *)
Fixpoint scanLines (result : gmap Address (list Transaction)) (lines : list string)
  : error + gmap Address (list Transaction) :=
  match lines with
  | [] => inr result
  | line :: rest =>
      match scanLine result line with
      | inl err => inl err
      | inr result' => scanLines result' rest
      end
  end.

(** [PendingTxsFromFile].  The argument is what [os.Open] and the line
    scanner make of the path: the error of [os.Open], or the lines that
    [fileScanner.Scan] yields, in order. *)
Definition PendingTxsFromFile (file : error + list string)
  : error + gmap Address (list Transaction) :=
  match file with
  | inl err => inl err
  | inr lines => scanLines ∅ lines
  end.

(** [PendingTxsFromFile] on the bytes of the file: the argument is the error
    of [os.Open] or the content of the file.  The loop runs over the lines
    the scanner hands out, and [fileScanner.Err] is never read. *)
Definition PendingTxsFromFileContent (file : error + string)
  : error + gmap Address (list Transaction) :=
  match file with
  | inl err => PendingTxsFromFile (inl err)
  | inr content => PendingTxsFromFile (inr (scannedLines content))
  end.

(** What a line contributes, read on its own: nothing when it does not
    split in two, otherwise the sender and the outcome of the decoding. *)
Definition parseLine (line : string) : option (Address * (error + Transaction)) :=
  match SplitN2 line with
  | [fromString; txString] =>
      Some (HexToAddress fromString, UnmarshalJSON txString)
  | _ => None
  end.

(** The transactions of sender [a] among the lines, in file order. *)
Fixpoint txsOfSender (a : Address) (lines : list string) : list Transaction :=
  match lines with
  | [] => []
  | line :: rest =>
      match parseLine line with
      | Some (from, inr tx) =>
          if decide (from = a) then tx :: txsOfSender a rest
          else txsOfSender a rest
      | _ => txsOfSender a rest
      end
  end.

(** A line that the loop passes without returning. *)
Definition lineAccepted (line : string) : bool :=
  match parseLine line with
  | Some (_, inl _) => false
  | _ => true
  end.

End Loader.

End backtest.

(* ===================================================================== *)
(** * The collaborators of the merge loop, after the specification        *)
(* ===================================================================== *)

Module supply.

(** Modelled from the spec: the transaction of section 3 (sender, nonce,
    effective gas price), with a flag for a valid signature; the type
    [types.Transaction] is not among the sources. *)
Record Transaction := mkTx {
  tx_sender : Z;
  tx_nonce : Z;
  tx_price : Z;
  tx_signed : bool
}.

(** Modelled from the spec: the bundle of section 3, an ordered sequence of
    transactions with an aggregate gas price and an identifying hash; the
    type [types.SimulatedBundle] is not among the sources. *)
Record SimulatedBundle := mkBundle {
  bundle_hash : Z;
  MevGasPrice : Z;
  bundle_txs : list Transaction
}.

(** Modelled from the spec: the order of section 3, a transaction or a
    bundle, ranked by the effective gas price of the one and the aggregate
    gas price of the other. *)
Definition Order : Type := @miner.TxWithMinerFee Transaction SimulatedBundle.

Definition txOrder (tx : Transaction) : Order := miner.mkOrder (Some tx) None.
Definition bundleOrder (b : SimulatedBundle) : Order := miner.mkOrder None (Some b).

Definition price (o : Order) : Z :=
  match miner.Tx o, miner.Bundle o with
  | Some tx, _ => tx_price tx
  | None, Some b => MevGasPrice b
  | None, None => 0
  end.

(** Modelled from the spec: the OrderedSupply of section 4.1
    ([types.TransactionsByPriceAndNonce], not among the sources).  [heads]
    holds the eligible orders, highest price first: the next transaction of
    every sender and the bundles; [queues] holds, per sender, the
    transactions behind its head, in nonce order. *)
Record Orders := mkOrders {
  heads : list Order;
  queues : gmap Z (list Transaction)
}.

(** Modelled from the spec: the next order is the one of highest price, so a
    new head is put in front of the first head of lower price. *)
Fixpoint insertByPrice (o : Order) (l : list Order) : list Order :=
  match l with
  | [] => [o]
  | h :: t => if price h <? price o then o :: h :: t else h :: insertByPrice o t
  end.

(** Modelled from the spec: peek inspects the next order without consuming
    it; the supply is exhausted when no head remains. *)
Definition Peek (s : Orders) : option Order := head (heads s).

(** Modelled from the spec: drop consumes the current order and discards
    the sender's remaining queue, or the bundle. *)
Definition Pop (s : Orders) : Orders :=
  match heads s with
  | [] => s
  | o :: rest =>
      match miner.Tx o with
      | Some tx => {| heads := rest; queues := delete (tx_sender tx) (queues s) |}
      | None => {| heads := rest; queues := queues s |}
      end
  end.

(** Modelled from the spec: advance consumes the current order and moves to
    the next transaction of the same sender. *)
Definition Shift (s : Orders) : Orders :=
  match heads s with
  | [] => s
  | o :: rest =>
      match miner.Tx o with
      | Some tx =>
          match queues s !! tx_sender tx with
          | Some (next :: more) =>
              {| heads := insertByPrice (txOrder next) rest;
                 queues := <[ tx_sender tx := more ]> (queues s) |}
          | _ => Pop s
          end
      | None => Pop s
      end
  end.

(** Modelled from the spec: the failures of section 4.2. *)
Inductive commitError :=
| ErrInvalidSignature
| ErrNonceGap
| ErrBundleFailed
| ErrInterrupted.

(** Modelled from the spec: the delta of the speculative environment of
    section 3, reduced to the transactions included so far. *)
Definition environmentDiff := list Transaction.

(** Modelled from the spec: the nonce the environment expects of a sender,
    the number of its transactions included so far. *)
Definition nextNonce (env : environmentDiff) (sender : Z) : Z :=
  Z.of_nat (List.length (List.filter (fun tx => tx_sender tx =? sender) env)).

(** Modelled from the spec: [commitTx] of section 4.2.  An invalid signature
    is skip-and-drop, a nonce gap is skip-sender, and both leave the
    environment as it was; a success records the transaction. *)
Definition commitTx (env : environmentDiff) (tx : Transaction) (_ : unit)
  : environmentDiff * (option Z * miner.skipKind * option commitError) :=
  if negb (tx_signed tx) then (env, (None, miner.popTx, Some ErrInvalidSignature))
  else if tx_nonce tx =? nextNonce env (tx_sender tx)
       then (env ++ [tx], (Some 21000, miner.shiftTx, None))
       else (env, (None, miner.shiftTx, Some ErrNonceGap)).

(** Modelled from the spec: the transactions of a bundle applied in order,
    [None] as soon as one fails. *)
Fixpoint commitAll (env : environmentDiff) (txs : list Transaction)
  : option environmentDiff :=
  match txs with
  | [] => Some env
  | tx :: rest =>
      match commitTx env tx tt with
      | (env', (_, _, None)) => commitAll env' rest
      | (_, (_, _, Some _)) => None
      end
  end.

(** Modelled from the spec: [commitBundle] of section 4.2.  The interrupt is
    checked at entry; the bundle is applied to a copy and kept only when
    every transaction commits. *)
Definition commitBundle (env : environmentDiff) (b : SimulatedBundle) (_ : unit)
    (interrupt : bool)
  : environmentDiff * option commitError :=
  if interrupt then (env, Some ErrInterrupted)
  else match commitAll env (bundle_txs b) with
       | Some env' => (env', None)
       | None => (env, Some ErrBundleFailed)
       end.

(** Modelled from the spec: every order is a transaction or a bundle
    (section 3); the supply that holds only such orders. *)
Definition wellFormed (s : Orders) : Prop :=
  Forall (fun o : Order => is_Some (miner.Tx o) \/ is_Some (miner.Bundle o)) (heads s).

(** The orders a supply still holds: its heads and what is queued behind. *)
Definition queued (m : gmap Z (list Transaction)) : nat :=
  map_fold (fun _ q acc => (List.length q + acc)%nat) O m.
Definition remaining (s : Orders) : nat :=
  (List.length (heads s) + queued (queues s))%nat.

Definition iteration := miner.iteration Peek Shift Pop commitTx commitBundle.
Definition mergeLoop := miner.mergeLoop Peek Shift Pop commitTx commitBundle.
Definition mergeOrdersIntoEnvDiff :=
  miner.mergeOrdersIntoEnvDiff Peek Shift Pop commitTx commitBundle.

Definition theBuilder (interrupt : bool) : miner.greedyBuilder :=
  miner.mkGreedyBuilder tt interrupt.

(** Sample orders: sender 1 sends an unsigned transaction and then a good
    one, sender 2 sends two good ones; two bundles. *)
Definition txA : Transaction := mkTx 1 0 10 false.
Definition txB : Transaction := mkTx 1 1 50 true.
Definition txD : Transaction := mkTx 2 0 20 true.
Definition txE : Transaction := mkTx 2 1 5 true.
Definition goodBundle : SimulatedBundle := mkBundle 100 30 [mkTx 3 0 30 true].
Definition badBundle : SimulatedBundle := mkBundle 101 40 [mkTx 4 7 40 true].

Definition unsignedFirst : Orders :=
  {| heads := [txOrder txA]; queues := {[ 1 := [txB] ]} |}.

Definition bundlesFirst : Orders :=
  {| heads := [bundleOrder badBundle; bundleOrder goodBundle; txOrder txD];
     queues := {[ 2 := [txE] ]} |}.

(** What the merge of [bundlesFirst] does when no interrupt is raised: the
    calls it makes and the transactions it includes. *)
Definition sampleCalls : list (@miner.call Transaction SimulatedBundle) :=
  [miner.CallCommitBundle badBundle; miner.CallPop;
   miner.CallTrace "Could not apply bundle";
   miner.CallCommitBundle goodBundle; miner.CallPop;
   miner.CallCommitTx txD; miner.CallShift;
   miner.CallCommitTx txE; miner.CallShift].
Definition sampleIncluded : environmentDiff := [mkTx 3 0 30 true; txD; txE].

Definition startState (orders : Orders)
  : @miner.loopState SimulatedBundle environmentDiff Orders :=
  miner.mkLoopState [] orders [] 0 0.

End supply.

(* ===================================================================== *)
(** * Sample relays and fixtures                                          *)
(* ===================================================================== *)

Module sample.
Import builder.

(** Library functions for the samples: every string that starts with [0]
    decodes (to no bytes), the address keeps the bytes it is given, and
    lower-casing is the identity on the lower-case samples used here. *)
#[local] Instance libs : Libs :=
  {| hexutil_Decode := fun s =>
       match s with
       | String "0"%char _ => Some []
       | _ => None
       end;
     Address_FromSlice := fun bs => bs;
     strings_ToLower := fun s => s |}.

Definition remoteValidator : ValidatorData := mkValidatorData "0xaa" [] 30000000.
Definition localValidator : ValidatorData := mkValidatorData "0xbb" [] 25000000.

(** A local relay that knows slot 5 only. *)
Definition localRelay5 : LocalRelay :=
  mkLocalRelay (fun slot =>
    if slot =? 5 then (localValidator, None)
    else (zeroValidatorData, Some ErrValidatorNotFound)).

Definition entry (slot : Z) : RelayEntry :=
  mkRelayEntry slot "0x00" 30000000 0 "0xaa" "0x".

(** A relay that always answers with slots 0 and 5, and one that is down. *)
Definition netUp : Network := fun _ => mkHTTPResult 200 None [entry 0; entry 5].
Definition netDown : Network :=
  fun _ => mkHTTPResult 0 (Some (ErrExternal "connection refused")) [].

(** A relay whose first answer is lost, and an entry whose fee recipient
    does not decode. *)
Definition netFlaky : Network :=
  fun k => match k with O => netDown k | S _ => netUp k end.
Definition badEntry (slot : Z) : RelayEntry :=
  mkRelayEntry slot "zz" 1 0 "0xcc" "0x".

(** A relay holding slot 5, idle and busy, without and with a local relay. *)
Definition idleRelay (l : option LocalRelay) : RemoteRelay :=
  mkRemoteRelay "http://relay" l false 64 {[ 5 := remoteValidator ]}.
Definition busyRelay : RemoteRelay :=
  mkRemoteRelay "http://relay" None true 64 {[ 5 := remoteValidator ]}.

(** Fixture lines for the loader: addresses are numbers written in unary
    with [x], a transaction is any text that does not start with [!]. *)
Definition HexToAddress (s : string) : Z := Z.of_nat (String.length s).
Definition UnmarshalJSON (s : string) : string + string :=
  match s with
  | String "!"%char _ => inl "invalid character"
  | _ => inr s
  end.

Definition PendingTxsFromFile :=
  backtest.PendingTxsFromFile HexToAddress UnmarshalJSON.

Definition PendingTxsFromFileContent :=
  backtest.PendingTxsFromFileContent HexToAddress UnmarshalJSON.

(** A line of 65536 bytes, and a file in which it stands before a line
    that does not decode. *)
Definition longLine : string :=
  backtest.replicate (256 * 256) "a"%char.
Definition hiddenErrorFile : string :=
  String.append longLine (String backtest.newline "x !").

(** The two fixture files below, as bytes. *)
Definition contentOne : string :=
  String.append "xx {b}"
    (String backtest.newline
       (String.append "nospace"
          (String backtest.newline
             (String.append "xx {a}" (String backtest.newline EmptyString))))).
Definition contentTwo : string :=
  String.append "x {c}"
    (String backtest.carriageReturn
       (String backtest.newline "xx {d}")).

(** Two fixture files that load, and what they load to. *)
Definition fileOne : list string := ["xx {b}"; "nospace"; "xx {a}"].
Definition fileTwo : list string := ["x {c}"; "xx {d}"].
Definition loadedOne : gmap Z (list string) := {[ 2 := ["{b}"; "{a}"] ]}.
Definition loadedTwo : gmap Z (list string) := {[ 1 := ["{c}"]; 2 := ["{d}"] ]}.

End sample.

(* ===================================================================== *)
(** * The validator registry                                              *)
(* ===================================================================== *)

Section RegistryFacts.
Import builder.
Context `{Libs}.

Lemma clear_after_mark (r : RemoteRelay) :
  validatorSyncOngoing r = false ->
  set_validatorSyncOngoing false (set_validatorSyncOngoing true r) = r.
Proof. destruct r as [ep l busy slot m]; simpl; intros ->; reflexivity. Qed.

(** When the current attempt and the next [retries] attempts all fail, the
    retry loop uses up its budget and ends on the error of the last one. *)
Lemma retryFetch_exhausted (net : Network) (retries : nat) :
  forall (n : nat) (err : error),
    (forall k, (k < retries)%nat ->
       exists e, getSlotValidatorMapFromRelay (net (n + k)%nat) = inl e) ->
    exists last evs,
      retryFetch net retries n (inl err) = (inl last, (n + retries)%nat, evs) /\
      (retries = O -> last = err) /\
      (forall p, retries = S p ->
         getSlotValidatorMapFromRelay (net (n + p)%nat) = inl last).
Proof.
  induction retries as [|p IH]; intros n err Hfail.
  - exists err, []. simpl. rewrite Nat.add_0_r.
    split; [reflexivity | split; [reflexivity | discriminate]].
  - destruct (Hfail O ltac:(lia)) as [e He]. rewrite Nat.add_0_r in He.
    destruct (IH (S n) e) as (last & evs & Hrun & Hzero & Hsucc).
    { intros k Hk. replace (S n + k)%nat with (n + S k)%nat by lia.
      apply Hfail. lia. }
    simpl. rewrite He, Hrun.
    eexists last, _. split; [|split].
    + f_equal. f_equal. lia.
    + discriminate.
    + intros q [= <-]. destruct p as [|p'].
      * rewrite (Hzero eq_refl). rewrite Nat.add_0_r. exact He.
      * replace (n + S p')%nat with (S n + p')%nat by lia.
        apply (Hsucc p' eq_refl).
Qed.

(** The retry loop stops at once on a fetched map. *)
Lemma retryFetch_fetched (net : Network) (retries n : nat)
    (m : gmap Z ValidatorData) :
  retryFetch net retries n (inr m) = (inr m, n, []).
Proof. destruct retries; reflexivity. Qed.

(** The retry loop ends on the first attempt that fetches a map. *)
Lemma retryFetch_first_success (net : Network) (retries : nat) :
  forall (n k : nat) (err : error) (m : gmap Z ValidatorData),
    (k < retries)%nat ->
    (forall j, (j < k)%nat ->
       exists e, getSlotValidatorMapFromRelay (net (n + j)%nat) = inl e) ->
    getSlotValidatorMapFromRelay (net (n + k)%nat) = inr m ->
    exists evs, retryFetch net retries n (inl err) = (inr m, (n + k + 1)%nat, evs).
Proof.
  induction retries as [|p IH]; intros n k err m Hk Hfail Hm; [lia|].
  simpl. destruct k as [|k'].
  - rewrite Nat.add_0_r in Hm. rewrite Hm, retryFetch_fetched.
    eexists. f_equal. f_equal. lia.
  - destruct (Hfail O ltac:(lia)) as [e He]. rewrite Nat.add_0_r in He.
    rewrite He.
    destruct (IH (S n) k' e m) as [evs Hrun].
    + lia.
    + intros j Hj. replace (S n + j)%nat with (n + S j)%nat by lia.
      apply Hfail. lia.
    + replace (S n + k')%nat with (n + S k')%nat by lia. exact Hm.
    + rewrite Hrun. eexists. f_equal. f_equal. lia.
Qed.

(** The retry loop sends at most [retries] requests. *)
Lemma retryFetch_sent (net : Network) (retries : nat) :
  forall (n : nat) (cur : error + gmap Z ValidatorData),
    (n <= (retryFetch net retries n cur).1.2 <= n + retries)%nat.
Proof.
  induction retries as [|p IH]; intros n cur.
  - destruct cur; simpl; lia.
  - destruct cur as [e|m]; simpl; [|lia].
    specialize (IH (S n) (getSlotValidatorMapFromRelay (net n))).
    destruct (retryFetch net p (S n) (getSlotValidatorMapFromRelay (net n)))
      as [[res n'] evs].
    simpl in *. lia.
Qed.

(** A refresh on an idle relay whose attempts all fail. *)
Lemma updateValidatorsMap_exhausted (net : Network) (n : nat)
    (r : RemoteRelay) (currentSlot retries : Z) :
  validatorSyncOngoing r = false ->
  (forall k, (k <= Z.to_nat retries)%nat ->
     exists e, getSlotValidatorMapFromRelay (net (n + k)%nat) = inl e) ->
  exists last evs,
    getSlotValidatorMapFromRelay (net (n + Z.to_nat retries)%nat) = inl last /\
    updateValidatorsMap net n r currentSlot retries
      = (r, Some last, (n + Z.to_nat retries + 1)%nat,
         evs ++ [EvLog "error" "could not get validators map from relay"]).
Proof.
  intros Hidle Hfail.
  destruct (Hfail O ltac:(lia)) as [e0 He0]. rewrite Nat.add_0_r in He0.
  destruct (retryFetch_exhausted net (Z.to_nat retries) (S n) e0)
    as (last & evs & Hrun & Hzero & Hsucc).
  { intros k Hk. replace (S n + k)%nat with (n + S k)%nat by lia.
    apply Hfail. lia. }
  exists last. eexists. split.
  - destruct (Z.to_nat retries) as [|p].
    + rewrite Nat.add_0_r, (Hzero eq_refl). exact He0.
    + replace (n + S p)%nat with (S n + p)%nat by lia. apply (Hsucc p eq_refl).
  - unfold updateValidatorsMap. rewrite Hidle, He0, Hrun.
    rewrite (clear_after_mark r Hidle).
    f_equal. f_equal. lia.
Qed.

(** A refresh on an idle relay whose attempt number [k] is the first to
    fetch a map. *)
Lemma updateValidatorsMap_fetched (net : Network) (n : nat)
    (r : RemoteRelay) (currentSlot retries : Z) (k : nat)
    (m : gmap Z ValidatorData) :
  validatorSyncOngoing r = false ->
  (k <= Z.to_nat retries)%nat ->
  (forall j, (j < k)%nat ->
     exists e, getSlotValidatorMapFromRelay (net (n + j)%nat) = inl e) ->
  getSlotValidatorMapFromRelay (net (n + k)%nat) = inr m ->
  exists evs,
    updateValidatorsMap net n r currentSlot retries
      = (set_validators m currentSlot r, None, (n + k + 1)%nat, evs).
Proof.
  intros Hidle Hk Hfail Hm. unfold updateValidatorsMap. rewrite Hidle.
  rewrite (clear_after_mark r Hidle).
  destruct k as [|k'].
  - rewrite Nat.add_0_r in Hm. rewrite Hm, retryFetch_fetched.
    eexists. f_equal. f_equal. lia.
  - destruct (Hfail O ltac:(lia)) as [e0 He0]. rewrite Nat.add_0_r in He0.
    rewrite He0.
    destruct (retryFetch_first_success net (Z.to_nat retries) (S n) k' e0 m)
      as [evs Hrun].
    + lia.
    + intros j Hj. replace (S n + j)%nat with (n + S j)%nat by lia.
      apply Hfail. lia.
    + replace (S n + k')%nat with (n + S k')%nat by lia. exact Hm.
    + rewrite Hrun. eexists. f_equal. f_equal. lia.
Qed.

(** What a refresh on an idle relay leaves, whatever the relay answers. *)
Lemma updateValidatorsMap_idle_after (net : Network) (n : nat)
    (r : RemoteRelay) (currentSlot retries : Z) :
  validatorSyncOngoing r = false ->
  exists r' err n' evs,
    updateValidatorsMap net n r currentSlot retries = (r', err, n', evs) /\
    endpoint r' = endpoint r /\ localRelay r' = localRelay r /\
    validatorSyncOngoing r' = false /\
    (n < n' <= n + Z.to_nat retries + 1)%nat /\
    match err with
    | Some _ => r' = r
    | None => lastRequestedSlot r' = currentSlot
    end.
Proof.
  intros Hidle. unfold updateValidatorsMap. rewrite Hidle.
  rewrite (clear_after_mark r Hidle).
  pose proof (retryFetch_sent net (Z.to_nat retries) (S n)
                (getSlotValidatorMapFromRelay (net n))) as Hsent.
  destruct (retryFetch net (Z.to_nat retries) (S n)
              (getSlotValidatorMapFromRelay (net n))) as [[res n'] evs].
  simpl in Hsent.
  destruct res as [e|m]; do 4 eexists; (split; [reflexivity|]); simpl;
    repeat split; try reflexivity; try assumption; try lia.
Qed.

(** Whatever the relay answers, a new relay is idle and its watermark is 0. *)
Lemma NewRemoteRelay_idle (net : Network) (n : nat) (ep : string)
    (l : option LocalRelay) :
  exists r n' evs,
    NewRemoteRelay net n ep l = (r, n', evs) /\
    endpoint r = ep /\ localRelay r = l /\
    validatorSyncOngoing r = false /\ lastRequestedSlot r = 0 /\
    (n < n' <= n + 4)%nat.
Proof.
  unfold NewRemoteRelay.
  destruct (updateValidatorsMap_idle_after net n
              (mkRemoteRelay ep l false 0 ∅) 0 3 eq_refl)
    as (r' & err & n' & evs & Hrun & Hep & Hl & Hflag & Hn & Hcase).
  rewrite Hrun. change (Z.to_nat 3) with 3%nat in Hn.
  destruct err as [e|]; do 3 eexists; (split; [reflexivity|]);
    repeat split; try assumption; try lia.
  subst r'. reflexivity.
Qed.

(** The number of lookups made never goes down. *)
Lemma step_lookups_mono (net : Network) (s : System) (a : action) :
  (sys_lookups s <= sys_lookups (step net s a))%nat.
Proof.
  destruct a as [nextSlot|]; unfold step.
  - destruct (GetValidatorForSlot (sys_relay s) nextSlot) as [[vd err] evs].
    simpl. lia.
  - destruct (sys_pending s) as [|[slot retries] rest]; [lia|].
    destruct (refreshInBackground net (sys_sent s) (sys_relay s) slot retries)
      as [[r' n'] evs].
    simpl. lia.
Qed.

Lemma run_lookups_mono (net : Network) (acts : list action) :
  forall s, (sys_lookups s <= sys_lookups (run net s acts))%nat.
Proof.
  induction acts as [|a acts IH]; intros s; [simpl; lia|].
  change (run net s (a :: acts)) with (run net (step net s a) acts).
  specialize (IH (step net s a)).
  pose proof (step_lookups_mono net s a). lia.
Qed.

(** Until the first lookup no goroutine exists, so nothing changes. *)
Lemma run_before_first_lookup (net : Network) (acts : list action) :
  forall s,
    sys_pending s = [] ->
    sys_lookups (run net s acts) = sys_lookups s ->
    run net s acts = s.
Proof.
  induction acts as [|a acts IH]; intros s Hpending Hsame; [reflexivity|].
  change (run net s (a :: acts)) with (run net (step net s a) acts) in *.
  destruct a as [nextSlot|].
  - pose proof (run_lookups_mono net acts (step net s (ActLookup nextSlot))) as Hmono.
    rewrite Hsame in Hmono. exfalso. revert Hmono.
    unfold step.
    destruct (GetValidatorForSlot (sys_relay s) nextSlot) as [[vd err] evs].
    simpl. lia.
  - assert (Hstep : step net s ActRunRefresh = s).
    { unfold step. rewrite Hpending. reflexivity. }
    rewrite Hstep in *. apply IH; assumption.
Qed.

(** C1: a call of [updateValidatorsMap] that finds a refresh already in
    progress returns the "sync is ongoing" error at once; it sends no request
    to the relay (the request counter stays and no event is left) and the
    relay, with its validator map, watermark and in-progress flag, is as
    before. *)
Theorem updateValidatorsMap_sync_ongoing (net : Network) (n : nat)
    (r : RemoteRelay) (currentSlot retries : Z) :
  validatorSyncOngoing r = true ->
  updateValidatorsMap net n r currentSlot retries = (r, Some ErrSyncOngoing, n, []).
Proof.
  intros Hbusy. unfold updateValidatorsMap. rewrite Hbusy. reflexivity.
Qed.

(** C2 (amended): when the first fetch and every retry of a call of
    [updateValidatorsMap] fail, the call clears the in-progress flag and
    returns the error of the last fetch, and the relay, with its validator
    map and watermark, is as before.  A lookup that follows, for a slot of
    the old map, succeeds: it returns the stale entry, unless a configured
    local relay has a registration for the slot, which is then returned. *)
Theorem updateValidatorsMap_fetch_exhausted (net : Network) (n : nat)
    (r : RemoteRelay) (currentSlot retries : Z) :
  validatorSyncOngoing r = false ->
  (forall k, (k <= Z.to_nat retries)%nat ->
     exists e, getSlotValidatorMapFromRelay (net (n + k)%nat) = inl e) ->
  exists r' last evs,
    getSlotValidatorMapFromRelay (net (n + Z.to_nat retries)%nat) = inl last /\
    updateValidatorsMap net n r currentSlot retries
      = (r', Some last, (n + Z.to_nat retries + 1)%nat, evs) /\
    validatorSyncOngoing r' = false /\
    validatorSlotMap r' = validatorSlotMap r /\
    lastRequestedSlot r' = lastRequestedSlot r /\
    r' = r /\
    forall slot vd, validatorSlotMap r !! slot = Some vd ->
      (GetValidatorForSlot r' slot).1
        = (match localRegistration r slot with
           | Some localValidator => localValidator
           | None => vd
           end, None).
Proof.
  intros Hidle Hfail.
  destruct (updateValidatorsMap_exhausted net n r currentSlot retries Hidle Hfail)
    as (last & evs & Hlast & Hrun).
  exists r, last. eexists.
  split; [exact Hlast|]. split; [exact Hrun|].
  repeat split; try assumption.
  intros slot vd Hslot. unfold GetValidatorForSlot, localRegistration.
  rewrite Hslot. destruct (localRelay r) as [l|]; [|reflexivity].
  destruct (local_GetValidatorForSlot l slot) as [lv [e|]]; reflexivity.
Qed.

(** C9: [NewRemoteRelay] always returns a relay, idle and with the endpoint
    and local relay it was given.  It tries the initial refresh for slot 0
    with up to three retries (at most four requests).  When all four fail the
    error is logged and not returned, and the validator map is empty.  When
    one of them succeeds the fetched map is installed, and the watermark is
    still 0. *)
Theorem NewRemoteRelay_usable (net : Network) (n : nat) (ep : string)
    (l : option LocalRelay) :
  exists r n' evs,
    NewRemoteRelay net n ep l = (r, n', evs) /\
    endpoint r = ep /\ localRelay r = l /\
    validatorSyncOngoing r = false /\ lastRequestedSlot r = 0 /\
    (n < n' <= n + 4)%nat /\
    (r, n') = (let out := updateValidatorsMap net n
                            (mkRemoteRelay ep l false 0 ∅) 0 3 in
               (out.1.1.1, out.1.2)) /\
    ((forall k, (k < 4)%nat ->
        exists e, getSlotValidatorMapFromRelay (net (n + k)%nat) = inl e) ->
     validatorSlotMap r = ∅ /\ n' = (n + 4)%nat /\
     last evs
       = Some (EvLog "error" "could not connect to remote relay, continuing anyway")) /\
    (forall k m, (k < 4)%nat ->
       (forall j, (j < k)%nat ->
          exists e, getSlotValidatorMapFromRelay (net (n + j)%nat) = inl e) ->
       getSlotValidatorMapFromRelay (net (n + k)%nat) = inr m ->
       validatorSlotMap r = m /\ n' = (n + k + 1)%nat).
Proof.
  destruct (NewRemoteRelay_idle net n ep l)
    as (r & n' & evs & Hnew & Hep & Hl & Hflag & Hslot & Hn).
  exists r, n', evs. split; [exact Hnew|].
  repeat (split; [assumption|]).
  unfold NewRemoteRelay in Hnew. split; [|split].
  - revert Hnew.
    destruct (updateValidatorsMap net n (mkRemoteRelay ep l false 0 ∅) 0 3)
      as [[[r0 err] n0] evs0].
    destruct err; intros [= <- <- <-]; reflexivity.
  - intros Hall.
    destruct (updateValidatorsMap_exhausted net n
                (mkRemoteRelay ep l false 0 ∅) 0 3 eq_refl)
      as (lastErr & evs0 & _ & Hrun).
    { intros k Hk. apply Hall. change (Z.to_nat 3) with 3%nat in Hk. lia. }
    rewrite Hrun in Hnew. injection Hnew as <- <- <-.
    split; [reflexivity|]. split; [change (Z.to_nat 3) with 3%nat; lia|].
    apply last_snoc.
  - intros k m Hk Hfail Hm.
    destruct (updateValidatorsMap_fetched net n
                (mkRemoteRelay ep l false 0 ∅) 0 3 k m eq_refl)
      as [evs0 Hrun]; try assumption.
    { change (Z.to_nat 3) with 3%nat. lia. }
    rewrite Hrun in Hnew. injection Hnew as <- <- <-.
    split; reflexivity.
Qed.

(** C3: for every slot, [GetValidatorForSlot] returns the registration of
    the local relay whenever one is configured and its lookup for the slot
    returns no error, whatever the remote map holds; otherwise the entry of
    the remote map, when there is one; otherwise the zero value with the
    sentinel [ErrValidatorNotFound], which is the only error it returns. *)
Theorem GetValidatorForSlot_precedence (r : RemoteRelay) (nextSlot : Z) :
  (forall l localValidator,
     localRelay r = Some l ->
     local_GetValidatorForSlot l nextSlot = (localValidator, None) ->
     (GetValidatorForSlot r nextSlot).1 = (localValidator, None)) /\
  (localRegistration r nextSlot = None ->
   forall vd, validatorSlotMap r !! nextSlot = Some vd ->
     (GetValidatorForSlot r nextSlot).1 = (vd, None)) /\
  (localRegistration r nextSlot = None ->
   validatorSlotMap r !! nextSlot = None ->
     (GetValidatorForSlot r nextSlot).1
       = (zeroValidatorData, Some ErrValidatorNotFound)) /\
  (localRegistration r nextSlot = None <->
   localRelay r = None \/
   exists l vd e, localRelay r = Some l /\
                  local_GetValidatorForSlot l nextSlot = (vd, Some e)) /\
  (forall e, (GetValidatorForSlot r nextSlot).1.2 = Some e ->
     e = ErrValidatorNotFound /\
     localRegistration r nextSlot = None /\
     validatorSlotMap r !! nextSlot = None).
Proof.
  unfold GetValidatorForSlot, localRegistration.
  split; [|split; [|split; [|split]]].
  - intros l lv -> ->. reflexivity.
  - intros Hlocal vd ->. destruct (localRelay r) as [l|]; [|reflexivity].
    destruct (local_GetValidatorForSlot l nextSlot) as [lv [e|]];
      [reflexivity|discriminate].
  - intros Hlocal ->. destruct (localRelay r) as [l|]; [|reflexivity].
    destruct (local_GetValidatorForSlot l nextSlot) as [lv [e|]];
      [reflexivity|discriminate].
  - destruct (localRelay r) as [l|].
    + destruct (local_GetValidatorForSlot l nextSlot) as [lv [e|]] eqn:Hl.
      * split; [|reflexivity]. intros _. right. exists l, lv, e. auto.
      * split; [discriminate|].
        intros [Hnone | (l' & vd & e & Hsome & Hget)]; [discriminate|].
        injection Hsome as <-. rewrite Hl in Hget. discriminate.
    + split; auto.
  - intros e. destruct (localRelay r) as [l|].
    + destruct (local_GetValidatorForSlot l nextSlot) as [lv [e'|]].
      * destruct (validatorSlotMap r !! nextSlot); simpl;
          [discriminate|]. intros [= <-]. auto.
      * simpl. discriminate.
    + destruct (validatorSlotMap r !! nextSlot); simpl;
        [discriminate|]. intros [= <-]. auto.
Qed.

(** C8 (amended): [GetValidatorForSlot] starts the background refresh, for
    the requested slot and with a single retry, exactly when the watermark
    is 0 or the slot lies in a later epoch (slot divided by 32) than the
    watermark.  The call itself sends no request and does not wait.  The
    watermark of a new relay is 0 and stays so until a lookup is made, so
    the first lookup ever starts one. *)
Theorem GetValidatorForSlot_refresh_trigger (r : RemoteRelay) (nextSlot : Z) :
  startedBy (GetValidatorForSlot r nextSlot).2
    = (if decide (lastRequestedSlot r = 0 \/
                  lastRequestedSlot r / 32 < nextSlot / 32)
       then [(nextSlot, 1)] else []) /\
  forallb (fun e => negb (touchesNetwork e)) (GetValidatorForSlot r nextSlot).2
    = true /\
  (forall net ep l acts,
     let s := run net (boot net ep l) acts in
     sys_lookups s = 0%nat ->
     startedBy (GetValidatorForSlot (sys_relay s) nextSlot).2 = [(nextSlot, 1)]).
Proof.
  assert (Hstart : forall r0,
    startedBy (GetValidatorForSlot r0 nextSlot).2
      = if refreshDue r0 nextSlot then [(nextSlot, 1)] else []).
  { intros r0. unfold GetValidatorForSlot.
    destruct (localRelay r0) as [l|].
    - destruct (local_GetValidatorForSlot l nextSlot) as [lv [e|]];
        destruct (validatorSlotMap r0 !! nextSlot);
        destruct (refreshDue r0 nextSlot); reflexivity.
    - destruct (validatorSlotMap r0 !! nextSlot);
        destruct (refreshDue r0 nextSlot); reflexivity. }
  split; [|split].
  - rewrite Hstart. unfold refreshDue.
    destruct (decide _) as [Hdue | Hnot].
    + destruct Hdue as [-> | Hlater]; [reflexivity|].
      apply Z.ltb_lt in Hlater. rewrite Hlater, orb_true_r. reflexivity.
    + destruct (lastRequestedSlot r =? 0) eqn:Hzero.
      { apply Z.eqb_eq in Hzero. tauto. }
      destruct (lastRequestedSlot r / 32 <? nextSlot / 32) eqn:Hlater.
      { apply Z.ltb_lt in Hlater. tauto. }
      reflexivity.
  - unfold GetValidatorForSlot.
    destruct (localRelay r) as [l|].
    + destruct (local_GetValidatorForSlot l nextSlot) as [lv [e|]];
        destruct (validatorSlotMap r !! nextSlot);
        destruct (refreshDue r nextSlot); reflexivity.
    + destruct (validatorSlotMap r !! nextSlot);
        destruct (refreshDue r nextSlot); reflexivity.
  - intros net ep l acts s Hfirst. subst s. rewrite Hstart.
    assert (Hboot : sys_pending (boot net ep l) = [] /\
                    sys_lookups (boot net ep l) = 0%nat /\
                    lastRequestedSlot (sys_relay (boot net ep l)) = 0).
    { unfold boot.
      destruct (NewRemoteRelay_idle net 0%nat ep l)
        as (r0 & n' & evs & Hnew & _ & _ & _ & Hslot & _).
      rewrite Hnew. simpl. auto. }
    destruct Hboot as (Hpending & Hlookups & Hslot).
    rewrite (run_before_first_lookup net acts (boot net ep l) Hpending)
      by congruence.
    unfold refreshDue. rewrite Hslot. reflexivity.
Qed.

End RegistryFacts.

(* ===================================================================== *)
(** * Header retrieval and block submission                               *)
(* ===================================================================== *)

Section ClientFacts.
Import builder.

(** [GetHeader], by what [SendHTTPRequest] returned: an error exactly when
    that call returned one; without one, a no-content (204) answer, an
    invalid payload, a payload of value zero and a payload whose
    transactions root is the root of the empty list all give success without
    reporting a received bid, and a bid is reported only when none of the
    four holds. *)
Lemma GetHeader_outcome (r : RemoteRelay) (slot : Z)
    (parentHashHex pubkey : string) (resp : HTTPResult GetHeaderResponse) :
  let out := GetHeader r slot parentHashHex pubkey resp in
  (is_Some out.1 <-> is_Some (http_err resp)) /\
  (forall err, http_err resp = Some err ->
     out.1 = Some (ErrGetHeaderRequest (endpoint r) slot parentHashHex pubkey err)) /\
  (http_err resp = None ->
   http_code resp = 204 \/
   hdr_IsInvalid (http_dst resp) = true \/
   hdr_Value (http_dst resp) = 0 \/
   hdr_TransactionsRoot (http_dst resp) = emptyListTxRoot ->
   out.1 = None /\ ~ In (EvLog "debug" "bid received") out.2) /\
  (In (EvLog "debug" "bid received") out.2 <->
   http_err resp = None /\
   http_code resp <> 204 /\
   hdr_IsInvalid (http_dst resp) = false /\
   hdr_Value (http_dst resp) <> 0 /\
   hdr_TransactionsRoot (http_dst resp) <> emptyListTxRoot).
Proof.
  assert (Hnot : forall evs : list event,
            evs = [EvLog "info" "get header from remote relay"] \/
            evs = [EvLog "info" "get header from remote relay";
                   EvLog "error" "error making request to relay"] \/
            evs = [EvLog "info" "get header from remote relay";
                   EvLog "info" "no-content response"] \/
            evs = [EvLog "info" "get header from remote relay";
                   EvLog "info" "get bid from remote relay";
                   EvLog "warn" "ignoring bid with 0 value"] ->
            ~ In (EvLog "debug" "bid received") evs).
  { intros evs [-> | [-> | [-> | ->]]]; simpl; intros Hin;
      repeat (destruct Hin as [Hin | Hin]; [discriminate|]); exact Hin. }
  unfold GetHeader, http_StatusNoContent. cbv zeta.
  destruct (http_err resp) as [err|]; cbn [fst snd app].
  { split; [split; eauto|]. split; [intros e [= <-]; reflexivity|].
    split; [discriminate|]. split; [|intros [? _]; discriminate].
    intros Hin. exfalso. revert Hin. apply Hnot. auto. }
  destruct (Z.eqb_spec (http_code resp) 204) as [Hcode | Hcode];
    cbn [fst snd app].
  { split; [split; intros [x Hx]; discriminate|]. split; [discriminate|].
    split; [intros _ _; split; [reflexivity|apply Hnot; auto]|].
    split; [|tauto]. intros Hin. exfalso. revert Hin. apply Hnot. auto. }
  destruct (hdr_IsInvalid (http_dst resp)) eqn:Hinv; cbn [fst snd app].
  { split; [split; intros [x Hx]; discriminate|]. split; [discriminate|].
    split; [intros _ _; split; [reflexivity|apply Hnot; auto]|].
    split; [|intros (_ & _ & ? & _); discriminate].
    intros Hin. exfalso. revert Hin. apply Hnot. auto. }
  destruct (Z.eqb_spec (hdr_Value (http_dst resp)) 0) as [Hval | Hval];
    cbn [fst snd app orb].
  { split; [split; intros [x Hx]; discriminate|]. split; [discriminate|].
    split; [intros _ _; split; [reflexivity|apply Hnot; auto 6]|].
    split; [|tauto]. intros Hin. exfalso. revert Hin. apply Hnot. auto 6. }
  destruct (String.eqb_spec (hdr_TransactionsRoot (http_dst resp)) emptyListTxRoot)
    as [Hroot | Hroot]; cbn [fst snd app orb].
  { split; [split; intros [x Hx]; discriminate|]. split; [discriminate|].
    split; [intros _ _; split; [reflexivity|apply Hnot; auto 6]|].
    split; [|tauto]. intros Hin. exfalso. revert Hin. apply Hnot. auto 6. }
  split; [split; intros [x Hx]; discriminate|]. split; [discriminate|].
  split.
  - intros _ [? | [? | [? | ?]]]; congruence.
  - split; [intros _; repeat split; assumption|].
    intros _. right. right. left. reflexivity.
Qed.

(** C7 (amended): [SubmitBlock] and [SubmitBlockCapella] fail exactly when
    the POST returned an error or a status code above 299, and they fail
    with the same error.  On success each hands the block to the local relay
    exactly when one is configured; on failure nothing is handed over. *)
Theorem SubmitBlock_failure_contract (r : RemoteRelay)
    (msg : BuilderSubmitBlockRequest) (cmsg : CapellaSubmitBlockRequest)
    (vd : ValidatorData) (resp : HTTPResult unit) :
  (is_Some (SubmitBlock r msg vd resp).1 <->
   is_Some (http_err resp) \/ 299 < http_code resp) /\
  (is_Some (SubmitBlockCapella r cmsg vd resp).1 <->
   is_Some (http_err resp) \/ 299 < http_code resp) /\
  (SubmitBlock r msg vd resp).1 = (SubmitBlockCapella r cmsg vd resp).1 /\
  (SubmitBlock r msg vd resp).2
    = EvLog "info" "submitting block to remote relay"
      :: match (SubmitBlock r msg vd resp).1, localRelay r with
         | None, Some _ => [EvLocalSubmitBlock msg]
         | _, _ => []
         end /\
  (SubmitBlockCapella r cmsg vd resp).2
    = EvLog "info" "submitting block to remote relay"
      :: match (SubmitBlockCapella r cmsg vd resp).1, localRelay r with
         | None, Some _ => [EvLocalSubmitBlockCapella cmsg]
         | _, _ => []
         end.
Proof.
  unfold SubmitBlock, SubmitBlockCapella.
  destruct (http_err resp) as [err|]; cbn [fst snd app].
  { repeat split; eauto. }
  destruct (Z.ltb_spec 299 (http_code resp)) as [Hcode | Hcode];
    cbn [fst snd app].
  { repeat split; eauto. }
  assert (Hno : ~ (is_Some (@None error) \/ 299 < http_code resp)).
  { intros [[x Hx] | Hlt]; [discriminate | lia]. }
  destruct (localRelay r) as [l|]; cbn [fst snd app];
    repeat split; try tauto; intros [x Hx]; discriminate.
Qed.

End ClientFacts.

(* ===================================================================== *)
(** * The greedy merge loop                                               *)
(* ===================================================================== *)

Section MergeFacts.
Import miner.
Context {Transaction SimulatedBundle Receipt commitError : Type}.
Context {environmentDiff chainData interruptFlag Orders : Type}.
Context (Peek : Orders -> option (@TxWithMinerFee Transaction SimulatedBundle)).
Context (Shift Pop : Orders -> Orders).
Context (commitTx :
  environmentDiff -> Transaction -> chainData ->
  environmentDiff * (option Receipt * skipKind * option commitError)).
Context (commitBundle :
  environmentDiff -> SimulatedBundle -> chainData -> interruptFlag ->
  environmentDiff * option commitError).

Local Abbreviation iteration := (iteration Peek Shift Pop commitTx commitBundle).
Local Abbreviation mergeLoop := (mergeLoop Peek Shift Pop commitTx commitBundle).

(** The loop unrolls by one pass. *)
Lemma mergeLoop_step (fuel : nat) (b : greedyBuilder) (st st' : loopState)
    (calls : list call) :
  iteration b st = Some (st', calls) ->
  mergeLoop (S fuel) b st
    = match mergeLoop fuel b st' with
      | Some (final, calls') => Some (final, calls ++ calls')
      | None => None
      end.
Proof. intros Hiter. simpl. rewrite Hiter. reflexivity. Qed.


(** C5 (amended): in a pass of the merge loop whose peeked order is a
    transaction for which [commitTx] returns an error, the cursor moves as
    the returned disposition says, and not always by an advance: [shiftTx]
    advances the sender's cursor, [popTx] drops the sender's queue, any other
    value leaves the supply as it is.  The environment is the one [commitTx]
    left, the used bundles are unchanged, and the loop goes on with the next
    pass: the error does not end the build. *)
Theorem tx_error_follows_disposition (b : greedyBuilder) (st : loopState)
    (order : TxWithMinerFee) (tx : Transaction)
    (envDiff' : environmentDiff) (receipt : option Receipt) (skip : skipKind)
    (err : commitError) :
  Peek (ls_orders st) = Some order ->
  Tx order = Some tx ->
  commitTx (ls_envDiff st) tx (builder_chainData b)
    = (envDiff', (receipt, skip, Some err)) ->
  exists st' calls,
    iteration b st = Some (st', calls) /\
    ls_orders st'
      = match skip with
        | shiftTx => Shift (ls_orders st)
        | popTx => Pop (ls_orders st)
        | skipOther _ => ls_orders st
        end /\
    countCalls isShift calls = (if skip is shiftTx then 1 else 0)%nat /\
    countCalls isPop calls = (if skip is popTx then 1 else 0)%nat /\
    ls_envDiff st' = envDiff' /\
    ls_usedBundles st' = ls_usedBundles st /\
    forall fuel,
      mergeLoop (S fuel) b st
        = match mergeLoop fuel b st' with
          | Some (final, calls') => Some (final, calls ++ calls')
          | None => None
          end.
Proof.
  intros Hpeek Htx Hcommit.
  assert (Hiter : forall orders' moved,
            applySkip Shift Pop skip (ls_orders st) = (orders', moved) ->
            iteration b st
              = Some ({| ls_envDiff := envDiff';
                         ls_orders := orders';
                         ls_usedBundles := ls_usedBundles st;
                         ls_txCount := ls_txCount st + 1;
                         ls_bundleCount := ls_bundleCount st |},
                      CallCommitTx tx :: moved ++ [CallTrace "could not apply tx"])).
  { intros orders' moved Hskip. unfold miner.iteration.
    rewrite Hpeek, Htx, Hcommit, Hskip. reflexivity. }
  destruct skip as [| |v];
    (do 2 eexists; split; [apply Hiter; reflexivity|]);
    repeat (split; [reflexivity|]);
    intros fuel; apply mergeLoop_step; apply Hiter; reflexivity.
Qed.

End MergeFacts.

(* ===================================================================== *)
(** * The pending-transaction fixture                                     *)
(* ===================================================================== *)

Section LoaderFacts.
Import backtest.
Context {Address : Type} `{Countable Address}.
Context {Transaction error : Type}.
Context (HexToAddress : string -> Address).
Context (UnmarshalJSON : string -> error + Transaction).

Local Abbreviation scanLine := (scanLine HexToAddress UnmarshalJSON).
Local Abbreviation scanLines := (scanLines HexToAddress UnmarshalJSON).
Local Abbreviation parseLine := (parseLine HexToAddress UnmarshalJSON).
Local Abbreviation txsOfSender := (txsOfSender HexToAddress UnmarshalJSON).
Local Abbreviation lineAccepted := (lineAccepted HexToAddress UnmarshalJSON).
Local Abbreviation PendingTxsFromFile :=
  (PendingTxsFromFile HexToAddress UnmarshalJSON).

Lemma SplitN2_cases (line : string) :
  SplitN2 line = [line] \/ exists fromString txString, SplitN2 line = [fromString; txString].
Proof.
  unfold SplitN2. destruct (cutAtSpace line) as [[before after]|]; eauto.
Qed.

(** The loop body, by what the line parses to. *)
Lemma scanLine_parse (result : gmap Address (list Transaction)) (line : string) :
  scanLine result line
    = match parseLine line with
      | None => inr result
      | Some (_, inl err) => inl err
      | Some (from, inr tx) =>
          inr (<[ from := default [] (result !! from) ++ [tx] ]> result)
      end.
Proof.
  unfold backtest.scanLine, backtest.parseLine.
  destruct (SplitN2_cases line) as [-> | (f & t & ->)]; [reflexivity|].
  destruct (UnmarshalJSON t); reflexivity.
Qed.

Lemma parseLine_unsplit (line : string) :
  List.length (SplitN2 line) <> 2%nat -> parseLine line = None.
Proof.
  unfold backtest.parseLine.
  destruct (SplitN2_cases line) as [-> | (f & t & ->)]; [reflexivity|].
  simpl. congruence.
Qed.

Lemma scanLines_app (result : gmap Address (list Transaction))
    (before after : list string) :
  scanLines result (before ++ after)
    = match scanLines result before with
      | inl err => inl err
      | inr result' => scanLines result' after
      end.
Proof.
  revert result. induction before as [|line before IH]; intros result;
    [reflexivity|].
  simpl. destruct (scanLine result line) as [err|result']; [reflexivity|].
  apply IH.
Qed.

Lemma scanLines_accepted (lines : list string) :
  forall result : gmap Address (list Transaction),
    forallb lineAccepted lines = true ->
    exists result', scanLines result lines = inr result'.
Proof.
  induction lines as [|line lines IH]; intros result Hacc; [simpl; eauto|].
  simpl in Hacc. apply andb_true_iff in Hacc as [Hline Hrest].
  simpl. rewrite scanLine_parse.
  unfold backtest.lineAccepted in Hline.
  destruct (parseLine line) as [[from [err|tx]]|]; [discriminate| |]; auto.
Qed.

(** Scanning appends, for every sender, its transactions in line order. *)
Lemma scanLines_order (lines : list string) :
  forall (result result' : gmap Address (list Transaction)) (a : Address),
    scanLines result lines = inr result' ->
    default [] (result' !! a) = default [] (result !! a) ++ txsOfSender a lines.
Proof.
  induction lines as [|line lines IH]; intros result result' a Hscan.
  - simpl in Hscan. injection Hscan as <-. simpl. rewrite app_nil_r. reflexivity.
  - simpl in Hscan. rewrite scanLine_parse in Hscan. simpl.
    destruct (parseLine line) as [[from [err|tx]]|].
    + discriminate.
    + rewrite (IH _ _ a Hscan). destruct (decide (from = a)) as [-> | Hne].
      * rewrite lookup_insert_eq. simpl. rewrite <- app_assoc. reflexivity.
      * rewrite lookup_insert_ne by assumption. reflexivity.
    + apply (IH _ _ a Hscan).
Qed.

(** The loop of [PendingTxsFromFile] over the lines it is handed: a line
    that does not split into two fields at a space is passed over, as if it
    were not there; the first line whose transaction text fails to decode
    makes the call return that error and no map, whatever follows; and when
    the call succeeds, the list stored for a sender holds its transactions
    in the order of their lines.  The call succeeds whenever every line is
    skipped or decodes. *)
Lemma PendingTxsFromFile_lines :
  (forall before line after,
     List.length (SplitN2 line) <> 2%nat ->
     PendingTxsFromFile (inr (before ++ line :: after))
       = PendingTxsFromFile (inr (before ++ after))) /\
  (forall before line after fromString txString err,
     forallb lineAccepted before = true ->
     SplitN2 line = [fromString; txString] ->
     UnmarshalJSON txString = inl err ->
     PendingTxsFromFile (inr (before ++ line :: after)) = inl err) /\
  (forall lines result,
     PendingTxsFromFile (inr lines) = inr result ->
     forall a, default [] (result !! a) = txsOfSender a lines) /\
  (forall lines,
     forallb lineAccepted lines = true ->
     exists result, PendingTxsFromFile (inr lines) = inr result).
Proof.
  unfold backtest.PendingTxsFromFile. split; [|split; [|split]].
  - intros before line after Hsplit.
    rewrite !scanLines_app. destruct (scanLines ∅ before) as [err|result];
      [reflexivity|].
    simpl. rewrite scanLine_parse, (parseLine_unsplit line Hsplit). reflexivity.
  - intros before line after fromString txString err Hacc Hsplit Hjson.
    rewrite scanLines_app.
    destruct (scanLines_accepted before ∅ Hacc) as [result ->].
    simpl. unfold backtest.scanLine. rewrite Hsplit, Hjson. reflexivity.
  - intros lines result Hscan a.
    rewrite (scanLines_order lines ∅ result a Hscan).
    rewrite lookup_empty. reflexivity.
  - intros lines Hacc. apply scanLines_accepted. exact Hacc.
Qed.

End LoaderFacts.

(* ===================================================================== *)
(** * The statements at sample inputs                                     *)
(* ===================================================================== *)

Section Samples.
Import builder.
#[local] Existing Instance sample.libs.

(** A refresh on the busy sample relay is turned away. *)
Lemma updateValidatorsMap_sync_ongoing_witness :
  validatorSyncOngoing sample.busyRelay = true /\
  updateValidatorsMap sample.netUp 0 sample.busyRelay 96 1
    = (sample.busyRelay, Some ErrSyncOngoing, 0%nat, []).
Proof.
  split; [reflexivity|].
  apply (updateValidatorsMap_sync_ongoing sample.netUp 0 sample.busyRelay 96 1).
  reflexivity.
Defined.

(** A refresh against a relay that is down, with one retry: two requests,
    the relay as before, and slot 5 still answered from the old map. *)
Lemma updateValidatorsMap_fetch_exhausted_witness :
  validatorSyncOngoing (sample.idleRelay None) = false /\
  (forall k, (k <= Z.to_nat 1)%nat ->
     exists e, getSlotValidatorMapFromRelay (sample.netDown (0 + k)%nat) = inl e) /\
  exists r' last evs,
    updateValidatorsMap sample.netDown 0 (sample.idleRelay None) 96 1
      = (r', Some last, 2%nat, evs) /\
    r' = sample.idleRelay None /\
    (GetValidatorForSlot r' 5).1 = (sample.remoteValidator, None).
Proof.
  assert (Hdown : forall k, (k <= Z.to_nat 1)%nat ->
            exists e, getSlotValidatorMapFromRelay (sample.netDown (0 + k)%nat) = inl e).
  { intros k _. eexists. reflexivity. }
  split; [reflexivity|]. split; [exact Hdown|].
  destruct (updateValidatorsMap_fetch_exhausted sample.netDown 0
              (sample.idleRelay None) 96 1 eq_refl Hdown)
    as (r' & last & evs & _ & Hrun & _ & _ & _ & Hsame & Hlookup).
  exists r', last, evs. split; [exact Hrun|]. split; [exact Hsame|].
  apply (Hlookup 5 sample.remoteValidator). reflexivity.
Defined.

(** C2, as stated, fails when a local relay knows the slot: after a refresh
    that failed on every attempt, the lookup for slot 5, which the old map
    holds, returns the local registration and not the stale remote entry. *)
Lemma stale_lookup_overridden_by_local_relay :
  let r := sample.idleRelay (Some sample.localRelay5) in
  let r' := (updateValidatorsMap sample.netDown 0 r 5 3).1.1.1 in
  validatorSyncOngoing r = false /\
  (forall k, getSlotValidatorMapFromRelay (sample.netDown k)
             = inl (ErrExternal "connection refused")) /\
  (updateValidatorsMap sample.netDown 0 r 5 3).1.1.2
    = Some (ErrExternal "connection refused") /\
  validatorSlotMap r !! 5 = Some sample.remoteValidator /\
  (GetValidatorForSlot r' 5).1 = (sample.localValidator, None) /\
  (GetValidatorForSlot r' 5).1 <> (sample.remoteValidator, None).
Proof.
  cbv zeta. split; [reflexivity|]. split; [intros k; reflexivity|].
  split; [reflexivity|]. split; [reflexivity|].
  split; [reflexivity|]. vm_compute. discriminate.
Qed.

(** C7, as stated, fails on a status code below 200: the code 101 is not
    of the 2xx class and both submissions succeed on it. *)
Lemma SubmitBlock_accepts_status_101 :
  let resp := mkHTTPResult 101 None tt in
  let r := sample.idleRelay None in
  http_err resp = None /\
  is2xx (http_code resp) = false /\
  (SubmitBlock r (mkBuilderSubmitBlockRequest "block") zeroValidatorData resp).1
    = None /\
  (SubmitBlockCapella r (mkCapellaSubmitBlockRequest "block") zeroValidatorData resp).1
    = None /\
  ~ (is_Some (SubmitBlock r (mkBuilderSubmitBlockRequest "block")
                zeroValidatorData resp).1 <->
     is_Some (http_err resp) \/ is2xx (http_code resp) = false).
Proof.
  cbv zeta. do 4 (split; [reflexivity|]).
  intros [_ Hfrom]. destruct Hfrom as [x Hx]; [right; reflexivity|].
  discriminate.
Qed.

(** C8, as stated, fails once the watermark stays at 0: a new relay serves a
    lookup for slot 0, the refresh it started succeeds, and the second
    lookup for slot 0, neither the first ever nor in a later epoch than the
    watermark, starts a refresh again. *)
Lemma refresh_restarted_on_later_lookup :
  let s := run sample.netUp (boot sample.netUp "http://relay" None)
             [ActLookup 0; ActRunRefresh] in
  sys_lookups s = 1%nat /\
  sys_pending s = [] /\
  validatorSlotMap (sys_relay s) !! 0 = Some sample.remoteValidator /\
  lastRequestedSlot (sys_relay s) = 0 /\
  ~ (lastRequestedSlot (sys_relay s) / 32 < 0 / 32) /\
  startedBy (GetValidatorForSlot (sys_relay s) 0).2 = [(0, 1)] /\
  ~ (startedBy (GetValidatorForSlot (sys_relay s) 0).2 <> [] <->
     sys_lookups s = 0%nat \/ lastRequestedSlot (sys_relay s) / 32 < 0 / 32).
Proof.
  cbv zeta.
  assert (Hlookups : sys_lookups (run sample.netUp
            (boot sample.netUp "http://relay" None) [ActLookup 0; ActRunRefresh])
            = 1%nat) by reflexivity.
  assert (Hslot : lastRequestedSlot (sys_relay (run sample.netUp
            (boot sample.netUp "http://relay" None) [ActLookup 0; ActRunRefresh]))
            = 0) by reflexivity.
  assert (Hstart : startedBy (GetValidatorForSlot (sys_relay (run sample.netUp
            (boot sample.netUp "http://relay" None) [ActLookup 0; ActRunRefresh]))
            0).2 = [(0, 1)]) by reflexivity.
  split; [exact Hlookups|]. split; [reflexivity|]. split; [reflexivity|].
  split; [exact Hslot|]. rewrite Hslot, Hlookups, Hstart.
  split; [intros Hlt; vm_compute in Hlt; discriminate|].
  split; [reflexivity|].
  intros [Hto _]. destruct Hto as [Hzero | Hlt]; [discriminate| |].
  - discriminate.
  - vm_compute in Hlt. discriminate.
Qed.

End Samples.

Section MergeSamples.
Import miner.


(** A pass over an unsigned transaction: the disposition is [popTx], so the
    supply is popped. *)
Lemma tx_error_follows_disposition_witness :
  supply.Peek supply.unsignedFirst = Some (supply.txOrder supply.txA) /\
  supply.commitTx [] supply.txA tt
    = ([], (None, popTx, Some supply.ErrInvalidSignature)) /\
  exists st' calls,
    supply.iteration (supply.theBuilder false) (supply.startState supply.unsignedFirst)
      = Some (st', calls) /\
    ls_orders st' = supply.Pop supply.unsignedFirst /\
    ls_usedBundles st' = [].
Proof.
  split; [reflexivity|]. split; [reflexivity|].
  destruct (tx_error_follows_disposition supply.Peek supply.Shift supply.Pop
              supply.commitTx supply.commitBundle
              (supply.theBuilder false) (supply.startState supply.unsignedFirst)
              (supply.txOrder supply.txA) supply.txA
              [] None popTx supply.ErrInvalidSignature
              eq_refl eq_refl eq_refl)
    as (st' & calls & Hiter & Horders & _ & _ & _ & Hused & _).
  exists st', calls. split; [exact Hiter|]. split; [exact Horders|]. exact Hused.
Defined.

(** C5, as stated, fails when the disposition is [popTx]: the unsigned
    transaction of sender 1 makes [commitTx] return an error, and the
    sender's cursor is not advanced to its next transaction; the queue is
    dropped and the supply is empty. *)
Lemma unsigned_tx_drops_sender_queue :
  let st := supply.startState supply.unsignedFirst in
  supply.Peek (ls_orders st) = Some (supply.txOrder supply.txA) /\
  (supply.commitTx (ls_envDiff st) supply.txA tt).2.2
    = Some supply.ErrInvalidSignature /\
  supply.Peek (supply.Shift (ls_orders st)) = Some (supply.txOrder supply.txB) /\
  exists st' calls,
    supply.iteration (supply.theBuilder false) st = Some (st', calls) /\
    countCalls isShift calls = 0%nat /\
    countCalls isPop calls = 1%nat /\
    supply.Peek (ls_orders st') = None /\
    ls_orders st' <> supply.Shift (ls_orders st).
Proof.
  cbv zeta. split; [reflexivity|]. split; [reflexivity|]. split; [reflexivity|].
  do 2 eexists. split; [reflexivity|].
  split; [reflexivity|]. split; [reflexivity|]. split; [reflexivity|].
  intros Heq. apply (f_equal supply.Peek) in Heq. vm_compute in Heq.
  discriminate.
Qed.

(** The whole loop on the sample supply: the bundle that does not commit
    and the one that does are both consumed, only the second is reported,
    and both transactions of sender 2 are included after it. *)
Example merge_sample :
  supply.mergeOrdersIntoEnvDiff 8 (supply.theBuilder false) [] supply.bundlesFirst
    = Some ([supply.mkTx 3 0 30 true; supply.txD; supply.txE],
            supply.mkOrders [] ∅,
            [supply.goodBundle],
            [CallCommitBundle supply.badBundle; CallPop;
             CallTrace "Could not apply bundle";
             CallCommitBundle supply.goodBundle; CallPop;
             CallCommitTx supply.txD; CallShift;
             CallCommitTx supply.txE; CallShift]).
Proof. reflexivity. Qed.

End MergeSamples.

Section LoaderSamples.

(** Three lines: one without a space, and two transactions of the sender
    written [xx], kept in the order of their lines. *)
Example loader_sample :
  sample.PendingTxsFromFile (inr ["xx {b}"; "nospace"; "xx {a}"])
    = inr {[ 2 := ["{b}"; "{a}"] ]}.
Proof. reflexivity. Qed.

(** A line that does not decode ends the call with its error. *)
Example loader_sample_error :
  sample.PendingTxsFromFile (inr ["xx {b}"; "x !"; "xx {a}"])
    = inl "invalid character".
Proof. reflexivity. Qed.

End LoaderSamples.

(* ===================================================================== *)
(** * More on the validator registry                                      *)
(* ===================================================================== *)

Section FetchFacts.
Import builder.
Context `{Libs}.

Lemma addEntry_decode (res : gmap Z ValidatorData) (data : RelayEntry) :
  addEntry res data
    = match decodeEntry data with
      | Some vd => <[ entry_Slot data := vd ]> res
      | None => res
      end.
Proof.
  unfold addEntry, decodeEntry.
  destruct (hexutil_Decode (entry_FeeRecipient data)); reflexivity.
Qed.

(** Folding the entries into a map: a slot holds its last registration, or
    what the map held before when the entries have none for it. *)
Lemma fold_addEntry_lookup (entries : list RelayEntry) :
  forall (m0 : gmap Z ValidatorData) (slot : Z),
    fold_left addEntry entries m0 !! slot
      = match last (registrationsFor slot entries) with
        | Some vd => Some vd
        | None => m0 !! slot
        end.
Proof.
  induction entries as [|data entries IH] using rev_ind; intros m0 slot;
    [reflexivity|].
  rewrite fold_left_app. simpl. rewrite addEntry_decode.
  unfold registrationsFor. rewrite omap_app. simpl.
  fold (registrationsFor slot entries).
  destruct (decide (entry_Slot data = slot)) as [Heq | Hne].
  - destruct (decodeEntry data) as [vd|].
    + rewrite last_snoc, Heq, lookup_insert_eq. reflexivity.
    + rewrite app_nil_r. apply IH.
  - rewrite app_nil_r.
    destruct (decodeEntry data) as [vd|]; [rewrite lookup_insert_ne by assumption|];
      apply IH.
Qed.

(** Within the attempts [n .. n + bound], either all fail or one is the
    first to fetch a map. *)
Lemma attempts_cases (net : Network) (n bound : nat) :
  (forall k, (k <= bound)%nat ->
     exists e, getSlotValidatorMapFromRelay (net (n + k)%nat) = inl e) \/
  (exists k m, (k <= bound)%nat /\
     (forall j, (j < k)%nat ->
        exists e, getSlotValidatorMapFromRelay (net (n + j)%nat) = inl e) /\
     getSlotValidatorMapFromRelay (net (n + k)%nat) = inr m).
Proof.
  induction bound as [|bound IH].
  - destruct (getSlotValidatorMapFromRelay (net (n + 0)%nat)) as [e|m] eqn:Hzero.
    + left. intros k Hk. assert (k = O) as -> by lia. eauto.
    + right. exists O, m. split; [lia|]. split; [intros j Hj; lia | exact Hzero].
  - destruct IH as [Hall | (k & m & Hk & Hbefore & Hm)].
    + destruct (getSlotValidatorMapFromRelay (net (n + S bound)%nat))
        as [e|m] eqn:Hnext.
      * left. intros k Hk. destruct (decide (k = S bound)) as [-> | Hne];
          [eauto | apply Hall; lia].
      * right. exists (S bound), m. split; [lia|].
        split; [intros j Hj; apply Hall; lia | exact Hnext].
    + right. exists k, m. split; [lia|]. split; assumption.
Qed.

(** The events of the retry loop: one sleep and one request per retry. *)
Lemma retryFetch_events (net : Network) (retries : nat) :
  forall (n : nat) (cur : error + gmap Z ValidatorData),
    let out := retryFetch net retries n cur in
    countEvents isGetValidators out.2 = (out.1.2 - n)%nat /\
    countEvents isSleep out.2 = (out.1.2 - n)%nat.
Proof.
  induction retries as [|p IH]; intros n cur.
  - destruct cur; simpl; split; lia.
  - destruct cur as [e|m]; simpl; [|split; lia].
    specialize (IH (S n) (getSlotValidatorMapFromRelay (net n))).
    pose proof (retryFetch_sent net p (S n)
                  (getSlotValidatorMapFromRelay (net n))) as Hsent.
    destruct (retryFetch net p (S n) (getSlotValidatorMapFromRelay (net n)))
      as [[res n'] evs].
    simpl in *. destruct IH as [Hget Hsleep]. split; lia.
Qed.

Lemma countEvents_app (p : event -> bool) (evs evs' : list event) :
  countEvents p (evs ++ evs') = (countEvents p evs + countEvents p evs')%nat.
Proof. induction evs as [|e evs IH]; simpl; [reflexivity|]. rewrite IH. lia. Qed.

(** The result of a lookup, in one equation. *)
Lemma GetValidatorForSlot_result (r : RemoteRelay) (nextSlot : Z) :
  (GetValidatorForSlot r nextSlot).1
    = match localRegistration r nextSlot with
      | Some localValidator => (localValidator, None)
      | None =>
          match validatorSlotMap r !! nextSlot with
          | Some vd => (vd, None)
          | None => (zeroValidatorData, Some ErrValidatorNotFound)
          end
      end.
Proof.
  unfold GetValidatorForSlot, localRegistration.
  destruct (localRelay r) as [l|].
  - destruct (local_GetValidatorForSlot l nextSlot) as [lv [e|]];
      destruct (validatorSlotMap r !! nextSlot); reflexivity.
  - destruct (validatorSlotMap r !! nextSlot); reflexivity.
Qed.

(** The goroutines a lookup starts, in one equation. *)
Lemma GetValidatorForSlot_started (r : RemoteRelay) (nextSlot : Z) :
  startedBy (GetValidatorForSlot r nextSlot).2
    = if refreshDue r nextSlot then [(nextSlot, 1)] else [].
Proof.
  unfold GetValidatorForSlot.
  destruct (localRelay r) as [l|].
  - destruct (local_GetValidatorForSlot l nextSlot) as [lv [e|]];
      destruct (validatorSlotMap r !! nextSlot);
      destruct (refreshDue r nextSlot); reflexivity.
  - destruct (validatorSlotMap r !! nextSlot);
      destruct (refreshDue r nextSlot); reflexivity.
Qed.

(** X1: [getSlotValidatorMapFromRelay] fails exactly on an error of the
    request, which it passes on, or on a status code above 299.  Otherwise
    it returns a map in which every slot holds the last registration the
    response carries for it whose fee recipient decodes, with the public
    key in lower case, and no other slot is present. *)
Theorem getSlotValidatorMapFromRelay_last_registration
    (resp : HTTPResult (list RelayEntry)) :
  match getSlotValidatorMapFromRelay resp with
  | inl e =>
      http_err resp = Some e \/
      (http_err resp = None /\ 299 < http_code resp /\
       e = ErrNonOkValidators (http_code resp))
  | inr m =>
      http_err resp = None /\ http_code resp <= 299 /\
      forall slot, m !! slot = last (registrationsFor slot (http_dst resp))
  end.
Proof.
  unfold getSlotValidatorMapFromRelay.
  destruct (http_err resp) as [e|]; [left; reflexivity|].
  destruct (Z.ltb_spec 299 (http_code resp)) as [Hcode | Hcode].
  - right. auto.
  - split; [reflexivity|]. split; [lia|]. intros slot.
    rewrite fold_addEntry_lookup, lookup_empty.
    destruct (last (registrationsFor slot (http_dst resp))); reflexivity.
Qed.

(** X2: an entry whose fee recipient does not decode is passed over: the
    outcome of [getSlotValidatorMapFromRelay] is the one of the response
    without that entry. *)
Theorem malformed_fee_recipient_skipped (code : Z) (err : option error)
    (before after : list RelayEntry) (bad : RelayEntry) :
  hexutil_Decode (entry_FeeRecipient bad) = None ->
  getSlotValidatorMapFromRelay (mkHTTPResult code err (before ++ bad :: after))
    = getSlotValidatorMapFromRelay (mkHTTPResult code err (before ++ after)).
Proof.
  intros Hbad. unfold getSlotValidatorMapFromRelay. simpl.
  destruct err as [e|]; [reflexivity|].
  destruct (299 <? code); [reflexivity|].
  rewrite !fold_left_app. simpl. unfold addEntry at 2. rewrite Hbad. reflexivity.
Qed.

(** X3: what a refresh on an idle relay returns tells what happened.  It
    returns no error exactly when one of the attempts within the budget
    fetched a map: then the map of the first such attempt replaces the old
    one as a whole, the watermark is the requested slot and no further
    request is sent.  It returns an error exactly when every attempt failed:
    the error is the one of the last attempt and the relay is as before. *)
Theorem updateValidatorsMap_outcome (net : Network) (n : nat)
    (r : RemoteRelay) (currentSlot retries : Z) :
  validatorSyncOngoing r = false ->
  exists r' err n' evs,
    updateValidatorsMap net n r currentSlot retries = (r', err, n', evs) /\
    match err with
    | None =>
        exists k m, (k <= Z.to_nat retries)%nat /\
          (forall j, (j < k)%nat ->
             exists e, getSlotValidatorMapFromRelay (net (n + j)%nat) = inl e) /\
          getSlotValidatorMapFromRelay (net (n + k)%nat) = inr m /\
          r' = set_validators m currentSlot r /\
          validatorSlotMap r' = m /\ lastRequestedSlot r' = currentSlot /\
          n' = (n + k + 1)%nat
    | Some e =>
        (forall k, (k <= Z.to_nat retries)%nat ->
           exists e', getSlotValidatorMapFromRelay (net (n + k)%nat) = inl e') /\
        getSlotValidatorMapFromRelay (net (n + Z.to_nat retries)%nat) = inl e /\
        r' = r /\ n' = (n + Z.to_nat retries + 1)%nat
    end.
Proof.
  intros Hidle.
  destruct (attempts_cases net n (Z.to_nat retries))
    as [Hall | (k & m & Hk & Hbefore & Hm)].
  - destruct (updateValidatorsMap_exhausted net n r currentSlot retries Hidle Hall)
      as (last & evs & Hlast & Hrun).
    do 4 eexists. split; [exact Hrun|]. cbv beta iota. auto.
  - destruct (updateValidatorsMap_fetched net n r currentSlot retries k m
                Hidle Hk Hbefore Hm) as [evs Hrun].
    do 4 eexists. split; [exact Hrun|]. cbv beta iota.
    exists k, m. repeat split; assumption.
Qed.

(** The requests and sleeps of the retry loop, in order: a sleep and then
    the request, once for every retry made. *)
Lemma retryFetch_wire (net : Network) (retries : nat) :
  forall (n : nat) (cur : error + gmap Z ValidatorData),
    let out := retryFetch net retries n cur in
    List.filter touchesNetwork out.2
      = List.flat_map (fun k => [EvSleep; EvGetValidators k])
          (seq n (out.1.2 - n)).
Proof.
  induction retries as [|p IH]; intros n cur.
  - destruct cur; simpl; rewrite Nat.sub_diag; reflexivity.
  - destruct cur as [e|m]; simpl; [|rewrite Nat.sub_diag; reflexivity].
    specialize (IH (S n) (getSlotValidatorMapFromRelay (net n))).
    pose proof (retryFetch_sent net p (S n)
                  (getSlotValidatorMapFromRelay (net n))) as Hsent.
    destruct (retryFetch net p (S n) (getSlotValidatorMapFromRelay (net n)))
      as [[res n'] evs].
    simpl in *. rewrite IH.
    replace (n' - n)%nat with (S (n' - S n)) by lia. reflexivity.
Qed.

(** X4: a refresh sends at least one and at most [retries + 1] requests (one
    when [retries] is not positive), sleeps once before every request but
    the first, and its event trace shows exactly the requests it sent: the
    requests and sleeps of the trace are, in this order, the first request
    and then, for every retry, a sleep followed by the request; a refresh
    that is turned away sends none and does not sleep. *)
Theorem updateValidatorsMap_request_budget (net : Network) (n : nat)
    (r : RemoteRelay) (currentSlot retries : Z) :
  exists r' err n' evs,
    updateValidatorsMap net n r currentSlot retries = (r', err, n', evs) /\
    countEvents isGetValidators evs = (n' - n)%nat /\
    (if validatorSyncOngoing r
     then n' = n /\ countEvents isSleep evs = O
     else (n < n' <= n + Z.to_nat retries + 1)%nat /\
          countEvents isSleep evs = (n' - n - 1)%nat /\
          (retries <= 0 -> n' = S n)) /\
    List.filter touchesNetwork evs
      = (if validatorSyncOngoing r then []
         else EvGetValidators n
              :: List.flat_map (fun k => [EvSleep; EvGetValidators k])
                   (seq (S n) (n' - n - 1))).
Proof.
  unfold updateValidatorsMap.
  destruct (validatorSyncOngoing r).
  { do 4 eexists. split; [reflexivity|]. simpl.
    split; [lia|]. split; [auto | reflexivity]. }
  pose proof (retryFetch_sent net (Z.to_nat retries) (S n)
                (getSlotValidatorMapFromRelay (net n))) as Hsent.
  pose proof (retryFetch_events net (Z.to_nat retries) (S n)
                (getSlotValidatorMapFromRelay (net n))) as Hevents.
  pose proof (retryFetch_wire net (Z.to_nat retries) (S n)
                (getSlotValidatorMapFromRelay (net n))) as Hwire.
  destruct (retryFetch net (Z.to_nat retries) (S n)
              (getSlotValidatorMapFromRelay (net n))) as [[res n'] evs].
  simpl in Hsent, Hevents, Hwire. destruct Hevents as [Hget Hsleep].
  destruct res as [e|m]; do 4 eexists; (split; [reflexivity|]);
    rewrite !countEvents_app; simpl;
    rewrite List.filter_app, Hwire, Hget, Hsleep; simpl; rewrite app_nil_r;
    (split; [lia|]);
    (split; [|replace (n' - n - 1)%nat with (n' - S n)%nat by lia; reflexivity]);
    (split; [lia|]); (split; [lia|]);
    intros Hretries; replace (Z.to_nat retries) with O in Hsent by lia; lia.
Qed.

(** X5: a call of [updateValidatorsMap] returns with the in-progress flag, the
    endpoint and the local relay as it found them: a refresh that ran has
    cleared the flag it set, on success and on failure alike. *)
Theorem updateValidatorsMap_keeps_flag (net : Network) (n : nat)
    (r : RemoteRelay) (currentSlot retries : Z) :
  let r' := (updateValidatorsMap net n r currentSlot retries).1.1.1 in
  validatorSyncOngoing r' = validatorSyncOngoing r /\
  endpoint r' = endpoint r /\
  localRelay r' = localRelay r.
Proof.
  destruct (validatorSyncOngoing r) eqn:Hflag.
  - unfold updateValidatorsMap. rewrite Hflag. simpl. auto.
  - destruct (updateValidatorsMap_idle_after net n r currentSlot retries Hflag)
      as (r' & err & n' & evs & Hrun & Hep & Hl & Hclear & _).
    rewrite Hrun. simpl. auto.
Qed.

(** X6: a refresh is its first locked part, the fetching and its second
    locked part.  While it is in flight, after the first part, every lookup
    returns what it returned before the refresh began, the map and the
    watermark are untouched, and a second refresh is turned away without a
    request. *)
Theorem refresh_in_flight (net : Network) (n : nat) (r : RemoteRelay)
    (currentSlot retries : Z) :
  updateValidatorsMap net n r currentSlot retries
    = match beginRefresh r with
      | inl err => (r, Some err, n, [])
      | inr r1 =>
          let '(res, n', evs) :=
            retryFetch net (Z.to_nat retries) (S n)
              (getSlotValidatorMapFromRelay (net n)) in
          let '(r2, err, evs') := finishRefresh r1 currentSlot res in
          (r2, err, n',
           (EvLog "info" "requesting " :: EvGetValidators n :: evs) ++ evs')
      end /\
  forall r1, beginRefresh r = inr r1 ->
    validatorSlotMap r1 = validatorSlotMap r /\
    lastRequestedSlot r1 = lastRequestedSlot r /\
    (forall nextSlot,
       GetValidatorForSlot r1 nextSlot = GetValidatorForSlot r nextSlot) /\
    (forall net' n0 slot' retries',
       updateValidatorsMap net' n0 r1 slot' retries'
         = (r1, Some ErrSyncOngoing, n0, [])).
Proof.
  split.
  - unfold updateValidatorsMap, beginRefresh, finishRefresh.
    destruct (validatorSyncOngoing r); [reflexivity|].
    destruct (retryFetch net (Z.to_nat retries) (S n)
                (getSlotValidatorMapFromRelay (net n))) as [[res n'] evs].
    destruct res; reflexivity.
  - unfold beginRefresh. destruct (validatorSyncOngoing r); [discriminate|].
    intros r1 [= <-]. repeat split; reflexivity.
Qed.

(** X7: after a refresh that succeeded for a slot other than 0, a lookup
    starts the next refresh exactly when its slot lies in a later epoch than
    the slot of the refresh: lookups within the epoch, or before it, start
    none. *)
Theorem refresh_then_epoch_guard (net : Network) (n : nat) (r r' : RemoteRelay)
    (currentSlot retries : Z) (n' : nat) (evs : list event) :
  validatorSyncOngoing r = false ->
  currentSlot <> 0 ->
  updateValidatorsMap net n r currentSlot retries = (r', None, n', evs) ->
  forall nextSlot,
    startedBy (GetValidatorForSlot r' nextSlot).2
      = if decide (currentSlot / 32 < nextSlot / 32) then [(nextSlot, 1)] else [].
Proof.
  intros Hidle Hslot Hrun nextSlot.
  destruct (updateValidatorsMap_idle_after net n r currentSlot retries Hidle)
    as (r0 & err & n0 & evs0 & Hrun' & _ & _ & _ & _ & Hcase).
  rewrite Hrun in Hrun'. injection Hrun' as <- <- <- <-.
  rewrite GetValidatorForSlot_started. unfold refreshDue. rewrite Hcase.
  destruct (Z.eqb_spec currentSlot 0) as [Hzero | _]; [contradiction|].
  simpl. destruct (Z.ltb_spec (currentSlot / 32) (nextSlot / 32));
    destruct (decide _); try reflexivity; lia.
Qed.

(** X8: a refresh followed by a lookup.  When attempt [k] of a refresh is
    the first to get an answer without error and with a status code up to
    299, the refresh succeeds and a lookup for any slot returns the local
    registration, if there is one, and otherwise the last registration that
    answer carries for the slot; a slot the answer does not carry is not
    found, whatever the old map held. *)
Theorem refresh_then_lookup (net : Network) (n : nat) (r : RemoteRelay)
    (currentSlot retries : Z) (k : nat) :
  validatorSyncOngoing r = false ->
  (k <= Z.to_nat retries)%nat ->
  (forall j, (j < k)%nat ->
     exists e, getSlotValidatorMapFromRelay (net (n + j)%nat) = inl e) ->
  http_err (net (n + k)%nat) = None ->
  http_code (net (n + k)%nat) <= 299 ->
  exists r' n' evs,
    updateValidatorsMap net n r currentSlot retries = (r', None, n', evs) /\
    forall slot,
      (GetValidatorForSlot r' slot).1
        = match localRegistration r slot with
          | Some localValidator => (localValidator, None)
          | None =>
              match last (registrationsFor slot (http_dst (net (n + k)%nat))) with
              | Some vd => (vd, None)
              | None => (zeroValidatorData, Some ErrValidatorNotFound)
              end
          end.
Proof.
  intros Hidle Hk Hbefore Herr Hcode.
  assert (Hm : getSlotValidatorMapFromRelay (net (n + k)%nat)
               = inr (fold_left addEntry (http_dst (net (n + k)%nat)) ∅)).
  { unfold getSlotValidatorMapFromRelay. rewrite Herr.
    destruct (Z.ltb_spec 299 (http_code (net (n + k)%nat))); [lia|reflexivity]. }
  destruct (updateValidatorsMap_fetched net n r currentSlot retries k _
              Hidle Hk Hbefore Hm) as [evs Hrun].
  do 3 eexists. split; [exact Hrun|]. intros slot.
  rewrite GetValidatorForSlot_result.
  unfold localRegistration. simpl.
  rewrite fold_addEntry_lookup, lookup_empty.
  destruct (last (registrationsFor slot (http_dst (net (n + k)%nat))));
    (destruct (localRelay r) as [l|]; [|reflexivity]);
    destruct (local_GetValidatorForSlot l slot) as [lv [e|]]; reflexivity.
Qed.

(** X9: however lookups and background refreshes follow one another on a
    new relay, the relay keeps the endpoint and the local relay it was built
    with, every refresh waiting to run was started with one retry, and no
    more refreshes are waiting than lookups were made. *)
Theorem run_keeps_relay_settings (net : Network) (ep : string)
    (l : option LocalRelay) (acts : list action) :
  let s := run net (boot net ep l) acts in
  endpoint (sys_relay s) = ep /\
  localRelay (sys_relay s) = l /\
  Forall (fun t => t.2 = 1) (sys_pending s) /\
  (List.length (sys_pending s) <= sys_lookups s)%nat.
Proof.
  cbv zeta.
  assert (Hinv : forall acts s,
    validatorSyncOngoing (sys_relay s) = false /\
    endpoint (sys_relay s) = ep /\ localRelay (sys_relay s) = l /\
    Forall (fun t => t.2 = 1) (sys_pending s) /\
    (List.length (sys_pending s) <= sys_lookups s)%nat ->
    validatorSyncOngoing (sys_relay (run net s acts)) = false /\
    endpoint (sys_relay (run net s acts)) = ep /\
    localRelay (sys_relay (run net s acts)) = l /\
    Forall (fun t => t.2 = 1) (sys_pending (run net s acts)) /\
    (List.length (sys_pending (run net s acts)) <= sys_lookups (run net s acts))%nat).
  { clear acts. induction acts as [|a acts IH]; intros s Hs; [exact Hs|].
    change (run net s (a :: acts)) with (run net (step net s a) acts).
    apply IH. destruct Hs as (Hflag & Hep & Hl & Hone & Hlen).
    destruct a as [nextSlot|]; unfold step.
    - pose proof (GetValidatorForSlot_started (sys_relay s) nextSlot) as Hst.
      destruct (GetValidatorForSlot (sys_relay s) nextSlot) as [[vd err] evs].
      simpl in *. rewrite Hst. repeat split; try assumption.
      + apply Forall_app. split; [assumption|].
        destruct (refreshDue (sys_relay s) nextSlot); repeat constructor.
      + rewrite length_app.
        destruct (refreshDue (sys_relay s) nextSlot); simpl; lia.
    - destruct (sys_pending s) as [|[slot retries] rest] eqn:Hpending.
      { rewrite Hpending. repeat split; assumption. }
      unfold refreshInBackground.
      destruct (updateValidatorsMap_idle_after net (sys_sent s) (sys_relay s)
                  slot retries Hflag)
        as (r' & err & n' & evs & Hrun & Hep' & Hl' & Hflag' & _).
      rewrite Hrun. apply Forall_cons in Hone as [_ Hone]. simpl in Hlen.
      destruct err; simpl; repeat split; try congruence; try assumption; lia. }
  apply (Hinv acts (boot net ep l)). unfold boot.
  destruct (NewRemoteRelay_idle net 0%nat ep l)
    as (r0 & n' & evs & Hnew & Hep & Hl & Hflag & _).
  rewrite Hnew. simpl. repeat split; try assumption; [constructor | lia].
Qed.

End FetchFacts.

(* ===================================================================== *)
(** * More on the greedy merge loop                                       *)
(* ===================================================================== *)

Section MergeMore.
Import miner.
Context {Transaction SimulatedBundle Receipt commitError : Type}.
Context {environmentDiff chainData interruptFlag Orders : Type}.
Context (Peek : Orders -> option (@TxWithMinerFee Transaction SimulatedBundle)).
Context (Shift Pop : Orders -> Orders).
Context (commitTx :
  environmentDiff -> Transaction -> chainData ->
  environmentDiff * (option Receipt * skipKind * option commitError)).
Context (commitBundle :
  environmentDiff -> SimulatedBundle -> chainData -> interruptFlag ->
  environmentDiff * option commitError).

Local Abbreviation iteration := (iteration Peek Shift Pop commitTx commitBundle).
Local Abbreviation mergeLoop := (mergeLoop Peek Shift Pop commitTx commitBundle).
Local Abbreviation mergeOrdersIntoEnvDiff :=
  (mergeOrdersIntoEnvDiff Peek Shift Pop commitTx commitBundle).

Lemma countCalls_app (p : @call Transaction SimulatedBundle -> bool)
    (calls calls' : list call) :
  countCalls p (calls ++ calls') = (countCalls p calls + countCalls p calls')%nat.
Proof.
  induction calls as [|c calls IH]; simpl; [reflexivity|]. rewrite IH. lia.
Qed.

Lemma committedBundles_app (calls calls' : list (@call Transaction SimulatedBundle)) :
  committedBundles (calls ++ calls')
    = committedBundles calls ++ committedBundles calls'.
Proof.
  induction calls as [|c calls IH]; simpl; [reflexivity|].
  destruct c; simpl; rewrite IH; reflexivity.
Qed.

(** What one pass does to the used bundles and how its calls pair up. *)
Lemma iteration_facts (b : greedyBuilder) (st st' : loopState)
    (calls : list call) :
  iteration b st = Some (st', calls) ->
  (exists added,
     ls_usedBundles st' = ls_usedBundles st ++ added /\
     added `sublist_of` committedBundles calls /\
     ((forall env bundle,
         is_Some (commitBundle env bundle (builder_chainData b)
                    (builder_interrupt b)).2) ->
      added = [])) /\
  (countCalls isCommitBundle calls <= countCalls isPop calls)%nat /\
  (countCalls isPop calls + countCalls isShift calls
   <= countCalls isCommitTx calls + countCalls isCommitBundle calls)%nat /\
  ((forall env tx v,
      (commitTx env tx (builder_chainData b)).2.1.2 <> skipOther v) ->
   (countCalls isPop calls + countCalls isShift calls
    = countCalls isCommitTx calls + countCalls isCommitBundle calls)%nat).
Proof.
  unfold miner.iteration.
  destruct (Peek (ls_orders st)) as [order|]; [|discriminate].
  destruct (Tx order) as [tx|].
  - pose proof (fun v => fun Hno : forall env tx v,
        (commitTx env tx (builder_chainData b)).2.1.2 <> skipOther v =>
        Hno (ls_envDiff st) tx v) as Hskip.
    destruct (commitTx (ls_envDiff st) tx (builder_chainData b))
      as [envDiff' [[receipt skip] err]].
    simpl in Hskip.
    destruct skip as [| |v]; destruct err as [e|]; simpl;
      intros [= <- <-]; simpl;
      (split; [exists []; rewrite app_nil_r;
               split; [reflexivity | split; [apply sublist_nil_l | reflexivity]]|]);
      (split; [lia|]); (split; [lia|]); intros Hno;
      try reflexivity; exfalso; apply (Hskip v Hno); reflexivity.
  - destruct (Bundle order) as [bundle|].
    + pose proof (fun Hfail : forall env bundle,
          is_Some (commitBundle env bundle (builder_chainData b)
                     (builder_interrupt b)).2 =>
          Hfail (ls_envDiff st) bundle) as Hfails.
      destruct (commitBundle (ls_envDiff st) bundle (builder_chainData b)
                  (builder_interrupt b)) as [envDiff' [e|]];
        intros [= <- <-]; simpl.
      * split; [|repeat split; lia].
        exists []. rewrite app_nil_r.
        split; [reflexivity | split; [apply sublist_nil_l | reflexivity]].
      * split; [|repeat split; lia].
        exists [bundle]. split; [reflexivity|]. split; [reflexivity|].
        intros Hfail. destruct (Hfails Hfail) as [x Hx]. discriminate.
    + intros [= <- <-]. simpl.
      split; [|repeat split; lia].
      exists []. rewrite app_nil_r.
      split; [reflexivity | split; [apply sublist_nil_l | reflexivity]].
Qed.

(** The same, for the whole loop. *)
Lemma mergeLoop_facts (b : greedyBuilder) (fuel : nat) :
  forall (st final : loopState) (calls : list call),
    mergeLoop fuel b st = Some (final, calls) ->
    Peek (ls_orders final) = None /\
    (exists added,
       ls_usedBundles final = ls_usedBundles st ++ added /\
       added `sublist_of` committedBundles calls /\
       ((forall env bundle,
           is_Some (commitBundle env bundle (builder_chainData b)
                      (builder_interrupt b)).2) ->
        added = [])) /\
    (countCalls isCommitBundle calls <= countCalls isPop calls)%nat /\
    (countCalls isPop calls + countCalls isShift calls
     <= countCalls isCommitTx calls + countCalls isCommitBundle calls)%nat /\
    ((forall env tx v,
        (commitTx env tx (builder_chainData b)).2.1.2 <> skipOther v) ->
     (countCalls isPop calls + countCalls isShift calls
      = countCalls isCommitTx calls + countCalls isCommitBundle calls)%nat).
Proof.
  induction fuel as [|fuel IH]; intros st final calls Hloop; [discriminate|].
  simpl in Hloop.
  destruct (iteration b st) as [[st' calls0]|] eqn:Hiter.
  - destruct (mergeLoop fuel b st') as [[final' calls']|] eqn:Hrest;
      [|discriminate].
    injection Hloop as <- <-.
    destruct (IH _ _ _ Hrest)
      as (Hpeek & (added' & Hused' & Hsub' & Hnone') & Hpop' & Hle' & Heq').
    destruct (iteration_facts b st st' calls0 Hiter)
      as ((added & Hused & Hsub & Hnone) & Hpop & Hle & Heq).
    split; [exact Hpeek|]. split; [|split; [|split]].
    + exists (added ++ added'). split; [|split].
      * rewrite Hused', Hused, app_assoc. reflexivity.
      * rewrite committedBundles_app. apply sublist_app; assumption.
      * intros Hfail. rewrite (Hnone Hfail), (Hnone' Hfail). reflexivity.
    + rewrite !countCalls_app. lia.
    + rewrite !countCalls_app. lia.
    + intros Hno. specialize (Heq Hno). specialize (Heq' Hno).
      rewrite !countCalls_app. lia.
  - injection Hloop as <- <-.
    unfold miner.iteration in Hiter.
    destruct (Peek (ls_orders st)) as [order|] eqn:Hpeek.
    { destruct (Tx order) as [tx|].
      - destruct (commitTx (ls_envDiff st) tx (builder_chainData b))
          as [envDiff' [[receipt skip] err]].
        destruct (applySkip Shift Pop skip (ls_orders st)) as [orders' moved].
        destruct err; discriminate.
      - destruct (Bundle order) as [bundle|]; [|discriminate].
        destruct (commitBundle (ls_envDiff st) bundle (builder_chainData b)
                    (builder_interrupt b)) as [envDiff' [e|]]; discriminate. }
    split; [reflexivity|]. split; [|simpl; repeat split; lia].
    exists []. rewrite app_nil_r.
    split; [reflexivity | split; [apply sublist_nil_l | reflexivity]].
Qed.

(** More fuel does not change a result. *)
Lemma mergeLoop_more_fuel (b : greedyBuilder) (fuel : nat) :
  forall (fuel' : nat) (st : loopState) out,
    (fuel <= fuel')%nat ->
    mergeLoop fuel b st = Some out ->
    mergeLoop fuel' b st = Some out.
Proof.
  induction fuel as [|fuel IH]; intros fuel' st out Hle Hloop; [discriminate|].
  destruct fuel' as [|fuel']; [lia|].
  simpl in *. destruct (iteration b st) as [[st' calls0]|]; [|exact Hloop].
  destruct (mergeLoop fuel b st') as [[final calls']|] eqn:Hrest; [|discriminate].
  rewrite (IH fuel' st' (final, calls') ltac:(lia) Hrest). exact Hloop.
Qed.

(** When every pass consumes, a loop with more fuel than the supply holds
    orders reaches its [break]. *)
Lemma mergeLoop_reaches_break (measure : Orders -> nat) (ok : Orders -> Prop)
    (b : greedyBuilder) :
  (forall s, ok s -> ok (Shift s) /\ ok (Pop s)) ->
  (forall s o, ok s -> Peek s = Some o ->
     (is_Some (Tx o) \/ is_Some (Bundle o)) /\
     (measure (Shift s) < measure s)%nat /\
     (measure (Pop s) < measure s)%nat) ->
  (forall env tx v,
     (commitTx env tx (builder_chainData b)).2.1.2 <> skipOther v) ->
  forall (fuel : nat) (st : loopState),
    ok (ls_orders st) ->
    (measure (ls_orders st) < fuel)%nat ->
    exists out, mergeLoop fuel b st = Some out.
Proof.
  intros Hok Hdec Hno.
  induction fuel as [|fuel IH]; intros st Hst Hlt; [lia|].
  simpl. unfold miner.iteration.
  destruct (Peek (ls_orders st)) as [order|] eqn:Hpeek; [|eauto].
  destruct (Hdec _ _ Hst Hpeek) as (Hkind & Hshift & Hpop).
  destruct (Hok _ Hst) as [HokShift HokPop].
  destruct (Tx order) as [tx|].
  - pose proof (Hno (ls_envDiff st) tx) as Hskip.
    destruct (commitTx (ls_envDiff st) tx (builder_chainData b))
      as [envDiff' [[receipt skip] err]].
    simpl in Hskip.
    destruct skip as [| |v]; [| |exfalso; apply (Hskip v); reflexivity];
      simpl;
      [ destruct (IH {| ls_envDiff := envDiff';
                        ls_orders := Shift (ls_orders st);
                        ls_usedBundles := ls_usedBundles st;
                        ls_txCount := ls_txCount st + 1;
                        ls_bundleCount := ls_bundleCount st |})
          as [[final calls'] Hrest]; [exact HokShift | simpl; lia |]
      | destruct (IH {| ls_envDiff := envDiff';
                        ls_orders := Pop (ls_orders st);
                        ls_usedBundles := ls_usedBundles st;
                        ls_txCount := ls_txCount st + 1;
                        ls_bundleCount := ls_bundleCount st |})
          as [[final calls'] Hrest]; [exact HokPop | simpl; lia |] ];
      destruct err; rewrite Hrest; eauto.
  - destruct Hkind as [[x Hx] | [bundle Hbundle]]; [discriminate|].
    rewrite Hbundle.
    destruct (commitBundle (ls_envDiff st) bundle (builder_chainData b)
                (builder_interrupt b)) as [envDiff' [e|]].
    + destruct (IH {| ls_envDiff := envDiff';
                      ls_orders := Pop (ls_orders st);
                      ls_usedBundles := ls_usedBundles st;
                      ls_txCount := ls_txCount st;
                      ls_bundleCount := ls_bundleCount st + 1 |})
        as [[final calls'] Hrest]; [exact HokPop | simpl; lia |].
      rewrite Hrest. eauto.
    + destruct (IH {| ls_envDiff := envDiff';
                      ls_orders := Pop (ls_orders st);
                      ls_usedBundles := ls_usedBundles st ++ [bundle];
                      ls_txCount := ls_txCount st;
                      ls_bundleCount := ls_bundleCount st + 1 |})
        as [[final calls'] Hrest]; [exact HokPop | simpl; lia |].
      rewrite Hrest. eauto.
Qed.

Lemma committedBundles_length (calls : list (@call Transaction SimulatedBundle)) :
  List.length (committedBundles calls) = countCalls isCommitBundle calls.
Proof.
  induction calls as [|c calls IH]; simpl; [reflexivity|].
  destruct c; simpl; rewrite ?IH; reflexivity.
Qed.

(** From a result of [mergeOrdersIntoEnvDiff] to the loop behind it. *)
Lemma mergeOrdersIntoEnvDiff_loop (fuel : nat) (b : greedyBuilder)
    (envDiff envDiff' : environmentDiff) (orders orders' : Orders)
    (used : list SimulatedBundle) (calls : list call) :
  mergeOrdersIntoEnvDiff fuel b envDiff orders
    = Some (envDiff', orders', used, calls) ->
  exists final,
    mergeLoop fuel b (mkLoopState envDiff orders [] 0 0) = Some (final, calls) /\
    ls_envDiff final = envDiff' /\ ls_orders final = orders' /\
    ls_usedBundles final = used.
Proof.
  unfold miner.mergeOrdersIntoEnvDiff.
  destruct (mergeLoop fuel b _) as [[final calls0]|]; [|discriminate].
  intros [= <- <- <- <-]. exists final. auto.
Qed.

(** X10: [mergeOrdersIntoEnvDiff] returns only on an exhausted supply: when
    it returns, [Peek] on the supply it leaves gives nothing.  No error of
    [commitTx] or [commitBundle], and no interrupt, makes it return with
    orders left. *)
Theorem merge_returns_on_exhausted_supply (fuel : nat) (b : greedyBuilder)
    (envDiff envDiff' : environmentDiff) (orders orders' : Orders)
    (used : list SimulatedBundle) (calls : list call) :
  mergeOrdersIntoEnvDiff fuel b envDiff orders
    = Some (envDiff', orders', used, calls) ->
  Peek orders' = None.
Proof.
  intros Hmerge.
  destruct (mergeOrdersIntoEnvDiff_loop _ _ _ _ _ _ _ _ Hmerge)
    as (final & Hloop & _ & <- & _).
  apply (mergeLoop_facts b fuel _ _ _ Hloop).
Qed.

(** X11: the used bundles that [mergeOrdersIntoEnvDiff] returns are among the
    bundles it handed to [commitBundle], each at most once per call and in
    the order of the calls; so there are no more of them than calls of
    [commitBundle]. *)
Theorem used_bundles_were_committed (fuel : nat) (b : greedyBuilder)
    (envDiff envDiff' : environmentDiff) (orders orders' : Orders)
    (used : list SimulatedBundle) (calls : list call) :
  mergeOrdersIntoEnvDiff fuel b envDiff orders
    = Some (envDiff', orders', used, calls) ->
  used `sublist_of` committedBundles calls /\
  (forall bundle, In bundle used -> In (CallCommitBundle bundle) calls) /\
  (List.length used <= countCalls isCommitBundle calls)%nat.
Proof.
  intros Hmerge.
  destruct (mergeOrdersIntoEnvDiff_loop _ _ _ _ _ _ _ _ Hmerge)
    as (final & Hloop & _ & _ & <-).
  destruct (mergeLoop_facts b fuel _ _ _ Hloop)
    as (_ & (added & Hused & Hsub & _) & _).
  simpl in Hused. rewrite Hused.
  split; [exact Hsub|]. split.
  - intros bundle Hin. apply list_elem_of_In in Hin.
    pose proof (sublist_submseteq _ _ Hsub) as Hmset.
    apply (elem_of_submseteq _ _ _ Hin) in Hmset.
    clear -Hmset. induction calls as [|c calls IH]; simpl in *.
    + inversion Hmset.
    + destruct c; simpl in *; try (right; apply IH; exact Hmset).
      apply elem_of_cons in Hmset as [-> | Hrest]; [left; reflexivity|].
      right. apply IH. exact Hrest.
  - rewrite <- committedBundles_length. apply sublist_length. exact Hsub.
Qed.


(** When [commitBundle] fails on every bundle, a result of
    [mergeOrdersIntoEnvDiff] has no used bundle and an exhausted supply. *)
Lemma failing_bundles_result (fuel : nat) (b : greedyBuilder)
    (envDiff envDiff' : environmentDiff) (orders orders' : Orders)
    (used : list SimulatedBundle) (calls : list call) :
  (forall env bundle,
     is_Some (commitBundle env bundle (builder_chainData b)
                (builder_interrupt b)).2) ->
  mergeOrdersIntoEnvDiff fuel b envDiff orders
    = Some (envDiff', orders', used, calls) ->
  used = [] /\ Peek orders' = None.
Proof.
  intros Hfail Hmerge.
  destruct (mergeOrdersIntoEnvDiff_loop _ _ _ _ _ _ _ _ Hmerge)
    as (final & Hloop & _ & <- & <-).
  destruct (mergeLoop_facts b fuel _ _ _ Hloop)
    as (Hpeek & (added & Hused & _ & Hnone) & _).
  split; [|exact Hpeek]. rewrite Hused, (Hnone Hfail). reflexivity.
Qed.

(** X14: [mergeOrdersIntoEnvDiff] terminates when every pass consumes.  If
    every order is a transaction or a bundle, [Shift] and [Pop] each lower a
    size of the supply, and [commitTx] only returns [shiftTx] or [popTx],
    then the loop reaches its [break] within as many passes as the size of
    the supply, plus the last one that finds it empty; more fuel gives the
    same result. *)
Theorem mergeOrdersIntoEnvDiff_terminates (measure : Orders -> nat)
    (ok : Orders -> Prop) (b : greedyBuilder)
    (envDiff : environmentDiff) (orders : Orders) :
  ok orders ->
  (forall s, ok s -> ok (Shift s) /\ ok (Pop s)) ->
  (forall s o, ok s -> Peek s = Some o ->
     (is_Some (Tx o) \/ is_Some (Bundle o)) /\
     (measure (Shift s) < measure s)%nat /\
     (measure (Pop s) < measure s)%nat) ->
  (forall env tx v,
     (commitTx env tx (builder_chainData b)).2.1.2 <> skipOther v) ->
  exists out,
    forall fuel, (measure orders < fuel)%nat ->
      mergeOrdersIntoEnvDiff fuel b envDiff orders = Some out.
Proof.
  intros Horders Hok Hdec Hno.
  destruct (mergeLoop_reaches_break measure ok b Hok Hdec Hno
              (S (measure orders)) (mkLoopState envDiff orders [] 0 0))
    as [[final calls] Hloop]; [exact Horders | simpl; lia |].
  exists (ls_envDiff final, ls_orders final, ls_usedBundles final, calls).
  intros fuel Hfuel. unfold miner.mergeOrdersIntoEnvDiff.
  assert (Hle : (S (measure orders) <= fuel)%nat) by lia.
  rewrite (mergeLoop_more_fuel b _ fuel _ _ Hle Hloop). reflexivity.
Qed.

(** X13: when [commitBundle] fails on every bundle, as it does once the
    interrupt is observed, a result of [mergeOrdersIntoEnvDiff] has no used
    bundle and an exhausted supply; and under the conditions of termination
    (every order a transaction or a bundle, [Shift] and [Pop] lowering a size
    of the supply, [commitTx] returning only [shiftTx] or [popTx]) the call
    does return, with the supply drained and no used bundle. *)
Theorem failing_bundles_leave_none_used (b : greedyBuilder)
    (envDiff : environmentDiff) (orders : Orders) :
  (forall env bundle,
     is_Some (commitBundle env bundle (builder_chainData b)
                (builder_interrupt b)).2) ->
  (forall fuel envDiff' orders' used calls,
     mergeOrdersIntoEnvDiff fuel b envDiff orders
       = Some (envDiff', orders', used, calls) ->
     used = [] /\ Peek orders' = None) /\
  (forall (measure : Orders -> nat) (ok : Orders -> Prop),
     ok orders ->
     (forall s, ok s -> ok (Shift s) /\ ok (Pop s)) ->
     (forall s o, ok s -> Peek s = Some o ->
        (is_Some (Tx o) \/ is_Some (Bundle o)) /\
        (measure (Shift s) < measure s)%nat /\
        (measure (Pop s) < measure s)%nat) ->
     (forall env tx v,
        (commitTx env tx (builder_chainData b)).2.1.2 <> skipOther v) ->
     exists envDiff' orders' calls,
       Peek orders' = None /\
       forall fuel, (measure orders < fuel)%nat ->
         mergeOrdersIntoEnvDiff fuel b envDiff orders
           = Some (envDiff', orders', [], calls)).
Proof.
  intros Hfail. split.
  - intros fuel envDiff' orders' used calls Hmerge.
    apply (failing_bundles_result fuel b envDiff envDiff' orders orders'
             used calls Hfail Hmerge).
  - intros measure ok Horders Hok Hdec Hno.
    destruct (mergeLoop_reaches_break measure ok b Hok Hdec Hno
                (S (measure orders)) (mkLoopState envDiff orders [] 0 0))
      as [[final calls] Hloop]; [exact Horders | simpl; lia |].
    destruct (mergeLoop_facts b _ _ _ _ Hloop)
      as (Hpeek & (added & Hused & _ & Hnone) & _).
    simpl in Hused. rewrite (Hnone Hfail) in Hused.
    exists (ls_envDiff final), (ls_orders final), calls.
    split; [exact Hpeek|]. intros fuel Hfuel.
    assert (Hle : (S (measure orders) <= fuel)%nat) by lia.
    unfold miner.mergeOrdersIntoEnvDiff.
    rewrite (mergeLoop_more_fuel b _ fuel _ _ Hle Hloop), Hused. reflexivity.
Qed.

End MergeMore.

(* ===================================================================== *)
(** * The modelled supply consumes                                        *)
(* ===================================================================== *)

Section SupplyFacts.
Import miner supply.

Lemma queued_lookup (m : gmap Z (list Transaction)) (k : Z) (q : list Transaction) :
  m !! k = Some q ->
  queued m = (List.length q + queued (delete k m))%nat.
Proof.
  intros Hk. unfold queued.
  apply (map_fold_delete_L (fun _ q acc => (List.length q + acc)%nat) O k q m);
    [|exact Hk].
  intros. lia.
Qed.

Lemma queued_delete_le (m : gmap Z (list Transaction)) (k : Z) :
  (queued (delete k m) <= queued m)%nat.
Proof.
  destruct (m !! k) as [q|] eqn:Hk.
  - rewrite (queued_lookup m k q Hk). lia.
  - rewrite delete_id by exact Hk. lia.
Qed.

Lemma insertByPrice_length (o : Order) (l : list Order) :
  List.length (insertByPrice o l) = S (List.length l).
Proof.
  induction l as [|h t IH]; simpl; [reflexivity|].
  destruct (price h <? price o); simpl; [reflexivity|]. rewrite IH. reflexivity.
Qed.

Lemma insertByPrice_Forall (P : Order -> Prop) (o : Order) (l : list Order) :
  P o -> Forall P l -> Forall P (insertByPrice o l).
Proof.
  intros Ho. induction 1 as [|h t Hh Ht IH]; simpl; [repeat constructor; exact Ho|].
  destruct (price h <? price o); repeat constructor; assumption.
Qed.

Lemma Pop_consumes (s : Orders) (o : Order) :
  Peek s = Some o -> (remaining (Pop s) < remaining s)%nat.
Proof.
  unfold Peek, Pop, remaining. destruct (heads s) as [|h rest]; [discriminate|].
  intros _. destruct (miner.Tx h) as [tx|]; simpl; [|lia].
  pose proof (queued_delete_le (queues s) (tx_sender tx)). lia.
Qed.

Lemma Shift_consumes (s : Orders) (o : Order) :
  Peek s = Some o -> (remaining (Shift s) < remaining s)%nat.
Proof.
  intros Hpeek. pose proof (Pop_consumes s o Hpeek) as Hpop.
  unfold Shift. unfold Peek in Hpeek.
  destruct (heads s) as [|h rest] eqn:Hheads; [discriminate|].
  destruct (miner.Tx h) as [tx|]; [|exact Hpop].
  destruct (queues s !! tx_sender tx) as [[|next more]|] eqn:Hq;
    try exact Hpop.
  unfold remaining. simpl. rewrite Hheads, insertByPrice_length. simpl.
  rewrite (queued_lookup (queues s) _ _ Hq).
  rewrite (queued_lookup (<[tx_sender tx:=more]> (queues s)) (tx_sender tx) more)
    by apply lookup_insert_eq.
  rewrite delete_insert_eq. simpl. lia.
Qed.

Lemma Pop_wellFormed (s : Orders) : wellFormed s -> wellFormed (Pop s).
Proof.
  unfold wellFormed, Pop. destruct (heads s) as [|h rest] eqn:Hheads;
    [rewrite Hheads; auto|].
  intros Hall. apply Forall_cons in Hall as [_ Hrest].
  destruct (miner.Tx h); exact Hrest.
Qed.

Lemma Shift_wellFormed (s : Orders) : wellFormed s -> wellFormed (Shift s).
Proof.
  intros Hs. pose proof (Pop_wellFormed s Hs) as Hpop.
  unfold Shift. destruct (heads s) as [|h rest] eqn:Hheads; [exact Hs|].
  destruct (miner.Tx h) as [tx|]; [|exact Hpop].
  destruct (queues s !! tx_sender tx) as [[|next more]|]; try exact Hpop.
  unfold wellFormed in *. simpl. rewrite Hheads in Hs.
  apply Forall_cons in Hs as [_ Hrest].
  apply insertByPrice_Forall; [|exact Hrest]. left. simpl. eauto.
Qed.

Lemma commitTx_disposition (env : environmentDiff) (tx : Transaction) (v : Z) :
  (commitTx env tx tt).2.1.2 <> skipOther v.
Proof.
  unfold commitTx. destruct (negb (tx_signed tx)); [discriminate|].
  destruct (tx_nonce tx =? nextNonce env (tx_sender tx)); discriminate.
Qed.

Lemma bundlesFirst_wellFormed : wellFormed bundlesFirst.
Proof.
  unfold wellFormed. simpl.
  repeat (apply Forall_cons; split;
          [first [left; eexists; reflexivity | right; eexists; reflexivity]|]).
  constructor.
Qed.

(** The merge over the sample supply ends on an empty supply. *)
Lemma merge_returns_on_exhausted_supply_witness :
  supply.mergeOrdersIntoEnvDiff 8 (theBuilder false) [] bundlesFirst
    = Some (sampleIncluded, mkOrders [] ∅, [goodBundle], sampleCalls) /\
  Peek (mkOrders [] ∅) = None.
Proof.
  split; [reflexivity|].
  apply (merge_returns_on_exhausted_supply Peek Shift Pop commitTx commitBundle
           8 (theBuilder false) [] sampleIncluded
           bundlesFirst (mkOrders [] ∅) [goodBundle] sampleCalls).
  reflexivity.
Defined.

(** On the sample supply the one used bundle is the second one committed. *)
Lemma used_bundles_were_committed_witness :
  supply.mergeOrdersIntoEnvDiff 8 (theBuilder false) [] bundlesFirst
    = Some (sampleIncluded, mkOrders [] ∅, [goodBundle], sampleCalls) /\
  [goodBundle] `sublist_of` committedBundles sampleCalls /\
  (forall bundle, In bundle [goodBundle] ->
     In (CallCommitBundle bundle) sampleCalls) /\
  (List.length [goodBundle] <= countCalls isCommitBundle sampleCalls)%nat.
Proof.
  split; [reflexivity|].
  apply (used_bundles_were_committed Peek Shift Pop commitTx commitBundle
           8 (theBuilder false) [] sampleIncluded
           bundlesFirst (mkOrders [] ∅) [goodBundle] sampleCalls).
  reflexivity.
Defined.


(** The modelled supply meets the conditions of termination: the sample
    supply holds four orders and five passes suffice. *)
Lemma mergeOrdersIntoEnvDiff_terminates_witness :
  wellFormed bundlesFirst /\
  remaining bundlesFirst = 4%nat /\
  exists out,
    forall fuel, (4 < fuel)%nat ->
      supply.mergeOrdersIntoEnvDiff fuel (theBuilder false) [] bundlesFirst = Some out.
Proof.
  split; [exact bundlesFirst_wellFormed|]. split; [reflexivity|].
  apply (mergeOrdersIntoEnvDiff_terminates Peek Shift Pop commitTx commitBundle
           remaining wellFormed (theBuilder false) [] bundlesFirst).
  - exact bundlesFirst_wellFormed.
  - intros s Hs. split; [apply Shift_wellFormed | apply Pop_wellFormed]; exact Hs.
  - intros s o Hs Hpeek. split; [|split].
    + unfold Peek in Hpeek. unfold wellFormed in Hs.
      destruct (heads s) as [|h rest]; [discriminate|].
      injection Hpeek as <-. apply Forall_cons in Hs as [Hh _]. exact Hh.
    + apply (Shift_consumes s o Hpeek).
    + apply (Pop_consumes s o Hpeek).
  - intros env tx v. apply commitTx_disposition.
Defined.

End SupplyFacts.

(* ===================================================================== *)
(** * More on the pending-transaction fixture                             *)
(* ===================================================================== *)

Section LoaderMore.
Import backtest.
Context {Address : Type} `{Countable Address}.
Context {Transaction error : Type}.
Context (HexToAddress : string -> Address).
Context (UnmarshalJSON : string -> error + Transaction).

Local Abbreviation scanLine := (scanLine HexToAddress UnmarshalJSON).
Local Abbreviation scanLines := (scanLines HexToAddress UnmarshalJSON).
Local Abbreviation parseLine := (parseLine HexToAddress UnmarshalJSON).
Local Abbreviation txsOfSender := (txsOfSender HexToAddress UnmarshalJSON).
Local Abbreviation lineAccepted := (lineAccepted HexToAddress UnmarshalJSON).
Local Abbreviation PendingTxsFromFile :=
  (PendingTxsFromFile HexToAddress UnmarshalJSON).

Lemma cutAtSpace_some (s before after : string) :
  cutAtSpace s = Some (before, after) ->
  s = String.append before (String " " after) /\ containsSpace before = false.
Proof.
  revert before. induction s as [|c rest IH]; intros before; simpl; [discriminate|].
  destruct (Ascii.eqb_spec c " "%char) as [-> | Hc].
  - intros [= <- <-]. split; reflexivity.
  - destruct (cutAtSpace rest) as [[b a]|]; [|discriminate].
    intros [= <- <-]. destruct (IH b eq_refl) as [-> Hb].
    split; [reflexivity|]. simpl. rewrite Hb.
    destruct (Ascii.eqb_spec c " "%char); [contradiction | reflexivity].
Qed.

Lemma cutAtSpace_none (s : string) :
  cutAtSpace s = None <-> containsSpace s = false.
Proof.
  induction s as [|c rest IH]; simpl; [tauto|].
  destruct (Ascii.eqb c " "%char); simpl; [split; discriminate|].
  rewrite <- IH. destruct (cutAtSpace rest) as [[b a]|]; split;
    try discriminate; reflexivity.
Qed.

Lemma cutAtSpace_join (before after : string) :
  containsSpace before = false ->
  cutAtSpace (String.append before (String " " after)) = Some (before, after).
Proof.
  induction before as [|c rest IH]; simpl; [reflexivity|].
  destruct (Ascii.eqb c " "%char); simpl; [discriminate|].
  intros Hrest. rewrite (IH Hrest). reflexivity.
Qed.

Lemma parseLine_some (line : string) (a : Address) (tx : Transaction) :
  parseLine line = Some (a, inr tx) <->
  exists fromString txString,
    SplitN2 line = [fromString; txString] /\
    HexToAddress fromString = a /\ UnmarshalJSON txString = inr tx.
Proof.
  unfold backtest.parseLine.
  destruct (SplitN2_cases line) as [-> | (f & t & ->)].
  - split; [discriminate|]. intros (f & t & Hsplit & _). discriminate.
  - split.
    + intros [= <- Htx]. eauto.
    + intros (f' & t' & [= <- <-] & <- & ->). reflexivity.
Qed.

Lemma txsOfSender_In (a : Address) (tx : Transaction) (lines : list string) :
  In tx (txsOfSender a lines) <->
  exists line, In line lines /\ parseLine line = Some (a, inr tx).
Proof.
  induction lines as [|line lines IH]; simpl.
  - split; [tauto | intros (l & [] & _)].
  - destruct (parseLine line) as [[from [err|tx']]|] eqn:Hparse.
    + rewrite IH. split; intros (l & Hin & Hl); [eauto|].
      destruct Hin as [<- | Hin]; [congruence | eauto].
    + destruct (decide (from = a)) as [-> | Hne]; simpl; rewrite IH.
      * split.
        -- intros [<- | (l & Hin & Hl)]; eauto.
        -- intros (l & [<- | Hin] & Hl); [left; congruence | right; eauto].
      * split; intros (l & Hin & Hl); [eauto|].
        destruct Hin as [<- | Hin]; [congruence | eauto].
    + rewrite IH. split; intros (l & Hin & Hl); [eauto|].
      destruct Hin as [<- | Hin]; [congruence | eauto].
Qed.

Lemma txsOfSender_app (a : Address) (before after : list string) :
  txsOfSender a (before ++ after) = txsOfSender a before ++ txsOfSender a after.
Proof.
  induction before as [|line before IH]; simpl; [reflexivity|].
  destruct (parseLine line) as [[from [err|tx]]|]; try exact IH.
  destruct (decide (from = a)); simpl; rewrite IH; reflexivity.
Qed.

(** Scanning never stores an empty list. *)
Lemma scanLines_nonempty (lines : list string) :
  forall result result' : gmap Address (list Transaction),
    scanLines result lines = inr result' ->
    (forall a txs, result !! a = Some txs -> txs <> []) ->
    forall a txs, result' !! a = Some txs -> txs <> [].
Proof.
  induction lines as [|line lines IH]; intros result result' Hscan Hinv.
  - injection Hscan as <-. exact Hinv.
  - simpl in Hscan. rewrite scanLine_parse in Hscan.
    destruct (parseLine line) as [[from [err|tx]]|]; [discriminate| |].
    + apply (IH _ _ Hscan). intros a txs.
      destruct (decide (from = a)) as [-> | Hne].
      * rewrite lookup_insert_eq. intros [= <-].
        destruct (default [] (result !! a)); discriminate.
      * rewrite lookup_insert_ne by assumption. apply Hinv.
    + apply (IH _ _ Hscan Hinv).
Qed.

(** A scan that fails stops at a line that splits and does not decode,
    after lines that were all passed. *)
Lemma scanLines_failure (lines : list string) :
  forall (result : gmap Address (list Transaction)) (err : error),
    scanLines result lines = inl err ->
    exists before line after fromString txString,
      lines = before ++ line :: after /\
      forallb lineAccepted before = true /\
      SplitN2 line = [fromString; txString] /\
      UnmarshalJSON txString = inl err.
Proof.
  induction lines as [|line lines IH]; intros result err Hscan; [discriminate|].
  simpl in Hscan. unfold backtest.scanLine in Hscan.
  destruct (SplitN2_cases line) as [Hone | (f & t & Htwo)].
  - rewrite Hone in Hscan.
    destruct (IH _ _ Hscan) as (before & l & after & f & t & -> & Hacc & Hl & Ht).
    exists (line :: before), l, after, f, t. repeat split; try assumption.
    simpl. rewrite Hacc. unfold backtest.lineAccepted, backtest.parseLine.
    rewrite Hone. reflexivity.
  - rewrite Htwo in Hscan. destruct (UnmarshalJSON t) as [e|tx] eqn:Hjson.
    + injection Hscan as <-. exists [], line, lines, f, t. auto.
    + destruct (IH _ _ Hscan) as (before & l & after & f' & t' & -> & Hacc & Hl & Ht).
      exists (line :: before), l, after, f', t'. repeat split; try assumption.
      simpl. rewrite Hacc. unfold backtest.lineAccepted, backtest.parseLine.
      rewrite Htwo, Hjson. reflexivity.
Qed.

(** X15: the split of a line at a space.  A line splits in two exactly when
    it holds a space; the first field is what stands before the first space
    and holds none, the second is all that follows it, further spaces
    included; and joining two such fields with a space and splitting again
    gives them back. *)
Theorem SplitN2_round_trip (line : string) :
  (forall fromString txString,
     SplitN2 line = [fromString; txString] ->
     line = String.append fromString (String " " txString) /\
     containsSpace fromString = false) /\
  (List.length (SplitN2 line) = 2%nat <-> containsSpace line = true) /\
  (containsSpace line = false <-> SplitN2 line = [line]) /\
  (forall txString,
     containsSpace line = false ->
     SplitN2 (String.append line (String " " txString)) = [line; txString]).
Proof.
  unfold SplitN2. split; [|split; [|split]].
  - intros f t. destruct (cutAtSpace line) as [[b a]|] eqn:Hcut; [|discriminate].
    intros [= <- <-]. apply cutAtSpace_some. exact Hcut.
  - pose proof (cutAtSpace_none line) as Hnone.
    destruct (cutAtSpace line) as [[b a]|]; simpl.
    + split; [|reflexivity]. intros _.
      destruct (containsSpace line); [reflexivity|].
      destruct Hnone as [_ Hnone]. discriminate (Hnone eq_refl).
    + destruct Hnone as [Hnone _]. rewrite (Hnone eq_refl).
      split; discriminate.
  - pose proof (cutAtSpace_none line) as Hnone.
    destruct (cutAtSpace line) as [[b a]|].
    + split; [|discriminate]. intros Hno. apply Hnone in Hno. discriminate.
    + split; [reflexivity|]. intros _. apply Hnone. reflexivity.
  - intros t Hno. rewrite (cutAtSpace_join line t Hno). reflexivity.
Qed.

(** Over the lines the loop is handed: a sender is a key of the returned map
    exactly when some line carries a transaction of it; no key holds an empty
    list, and the list of a key is the sender's transactions in line
    order. *)
Lemma PendingTxsFromFile_senders (lines : list string)
    (result : gmap Address (list Transaction)) :
  PendingTxsFromFile (inr lines) = inr result ->
  forall a,
    (result !! a = None <-> txsOfSender a lines = []) /\
    (forall txs, result !! a = Some txs ->
       txs = txsOfSender a lines /\ txs <> []).
Proof.
  unfold backtest.PendingTxsFromFile. intros Hscan a.
  pose proof (scanLines_order HexToAddress UnmarshalJSON lines ∅ result a Hscan)
    as Horder.
  rewrite lookup_empty in Horder. simpl in Horder.
  assert (Hne : forall txs, result !! a = Some txs -> txs <> []).
  { intros txs. apply (scanLines_nonempty lines ∅ result Hscan).
    intros a0 txs0. rewrite lookup_empty. discriminate. }
  destruct (result !! a) as [txs|] eqn:Ha; simpl in Horder.
  - split.
    + split; [discriminate|]. intros Hnil.
      exfalso. apply (Hne txs eq_refl). congruence.
    + intros txs' [= <-]. split; [exact Horder | exact (Hne txs eq_refl)].
  - split; [|discriminate]. split; [intros _; symmetry; exact Horder | reflexivity].
Qed.

(** Over the lines the loop is handed: a transaction is in the list of a
    sender exactly when some line splits into a first field that
    [HexToAddress] takes to that sender and a second field that decodes to
    the transaction. *)
Lemma PendingTxsFromFile_membership (lines : list string)
    (result : gmap Address (list Transaction)) :
  PendingTxsFromFile (inr lines) = inr result ->
  forall a tx,
    (exists txs, result !! a = Some txs /\ In tx txs) <->
    (exists line fromString txString,
       In line lines /\
       SplitN2 line = [fromString; txString] /\
       HexToAddress fromString = a /\
       UnmarshalJSON txString = inr tx).
Proof.
  unfold backtest.PendingTxsFromFile. intros Hscan a tx.
  pose proof (scanLines_order HexToAddress UnmarshalJSON lines ∅ result a Hscan)
    as Horder.
  rewrite lookup_empty in Horder. simpl in Horder.
  split.
  - intros (txs & Ha & Hin). rewrite Ha in Horder. simpl in Horder.
    rewrite Horder in Hin. apply txsOfSender_In in Hin as (line & Hline & Hparse).
    apply parseLine_some in Hparse as (f & t & Hsplit & Hfrom & Hjson).
    exists line, f, t. auto.
  - intros (line & f & t & Hline & Hsplit & Hfrom & Hjson).
    assert (Hin : In tx (txsOfSender a lines)).
    { apply txsOfSender_In. exists line. split; [exact Hline|].
      apply parseLine_some. eauto. }
    rewrite <- Horder in Hin.
    destruct (result !! a) as [txs|]; simpl in Hin; [eauto | contradiction].
Qed.

(** Two lists of lines that load give, one after the other, a list that
    loads, and the list of every sender is its list from the first followed
    by its list from the second. *)
Lemma PendingTxsFromFile_concat (first second : list string)
    (result1 result2 : gmap Address (list Transaction)) :
  PendingTxsFromFile (inr first) = inr result1 ->
  PendingTxsFromFile (inr second) = inr result2 ->
  exists result,
    PendingTxsFromFile (inr (first ++ second)) = inr result /\
    forall a,
      default [] (result !! a)
        = default [] (result1 !! a) ++ default [] (result2 !! a).
Proof.
  unfold backtest.PendingTxsFromFile. intros Hfirst Hsecond.
  destruct (scanLines ∅ (first ++ second)) as [err|result] eqn:Hboth.
  - exfalso. rewrite scanLines_app, Hfirst in Hboth.
    destruct (scanLines_failure second result1 err Hboth)
      as (before & line & after & f & t & -> & Hacc & Hsplit & Hjson).
    rewrite scanLines_app in Hsecond.
    destruct (scanLines_accepted HexToAddress UnmarshalJSON before ∅ Hacc)
      as [mid Hmid].
    rewrite Hmid in Hsecond. simpl in Hsecond. unfold backtest.scanLine in Hsecond.
    rewrite Hsplit, Hjson in Hsecond. discriminate.
  - exists result. split; [reflexivity|]. intros a.
    rewrite (scanLines_order HexToAddress UnmarshalJSON _ ∅ result a Hboth).
    rewrite (scanLines_order HexToAddress UnmarshalJSON _ ∅ result1 a Hfirst).
    rewrite (scanLines_order HexToAddress UnmarshalJSON _ ∅ result2 a Hsecond).
    rewrite lookup_empty. simpl. apply txsOfSender_app.
Qed.

(** X19: [PendingTxsFromFile] fails on a file that opens only because of a
    line that splits in two and whose second field does not decode: the
    error returned is the one of the first such line, and lines that do not
    split never make it fail. *)
Theorem PendingTxsFromFile_failure (lines : list string) (err : error) :
  PendingTxsFromFile (inr lines) = inl err ->
  exists before line after fromString txString,
    lines = before ++ line :: after /\
    forallb lineAccepted before = true /\
    SplitN2 line = [fromString; txString] /\
    UnmarshalJSON txString = inl err.
Proof.
  unfold backtest.PendingTxsFromFile. apply scanLines_failure.
Qed.

End LoaderMore.

(* ===================================================================== *)
(** * The further statements at sample inputs                             *)
(* ===================================================================== *)

Section MoreSamples.
Import builder.
#[local] Existing Instance sample.libs.

(** An entry with the fee recipient [zz] between two good ones. *)
Lemma malformed_fee_recipient_skipped_witness :
  hexutil_Decode (entry_FeeRecipient (sample.badEntry 7)) = None /\
  getSlotValidatorMapFromRelay
    (mkHTTPResult 200 None ([sample.entry 0] ++ sample.badEntry 7 :: [sample.entry 5]))
  = getSlotValidatorMapFromRelay
      (mkHTTPResult 200 None ([sample.entry 0] ++ [sample.entry 5])).
Proof.
  split; [reflexivity|].
  apply (malformed_fee_recipient_skipped 200 None
           [sample.entry 0] [sample.entry 5] (sample.badEntry 7)).
  reflexivity.
Defined.

(** A refresh with one retry against a relay whose first answer is lost:
    the second attempt installs the map. *)
Lemma updateValidatorsMap_outcome_witness :
  validatorSyncOngoing (sample.idleRelay None) = false /\
  exists r' n' evs,
    updateValidatorsMap sample.netFlaky 0 (sample.idleRelay None) 96 1
      = (r', None, n', evs) /\
    lastRequestedSlot r' = 96 /\ n' = 2%nat.
Proof.
  split; [reflexivity|].
  destruct (updateValidatorsMap_outcome sample.netFlaky 0
              (sample.idleRelay None) 96 1 eq_refl)
    as (r' & err & n' & evs & Hrun & Hcase).
  assert (Herr : err = None).
  { assert (Hcomp : (updateValidatorsMap sample.netFlaky 0
                       (sample.idleRelay None) 96 1).1.1.2 = None) by reflexivity.
    rewrite Hrun in Hcomp. exact Hcomp. }
  subst err. destruct Hcase as (k & m & _ & _ & _ & _ & _ & Hslot & Hn).
  exists r', n', evs. split; [exact Hrun|]. split; [exact Hslot|].
  assert (Hcomp : (updateValidatorsMap sample.netFlaky 0
                     (sample.idleRelay None) 96 1).1.2 = 2%nat) by reflexivity.
  rewrite Hrun in Hcomp. exact Hcomp.
Defined.

(** After a refresh for slot 96 (epoch 3) a lookup for slot 127 starts
    nothing and one for slot 128 starts a refresh. *)
Lemma refresh_then_epoch_guard_witness :
  let out := updateValidatorsMap sample.netUp 0 (sample.idleRelay None) 96 1 in
  validatorSyncOngoing (sample.idleRelay None) = false /\
  out = (out.1.1.1, None, out.1.2, out.2) /\
  startedBy (GetValidatorForSlot out.1.1.1 127).2 = [] /\
  startedBy (GetValidatorForSlot out.1.1.1 128).2 = [(128, 1)].
Proof.
  cbv zeta. split; [reflexivity|]. split; [reflexivity|].
  pose proof (refresh_then_epoch_guard sample.netUp 0 (sample.idleRelay None)
                (updateValidatorsMap sample.netUp 0 (sample.idleRelay None) 96 1).1.1.1
                96 1
                (updateValidatorsMap sample.netUp 0 (sample.idleRelay None) 96 1).1.2
                (updateValidatorsMap sample.netUp 0 (sample.idleRelay None) 96 1).2
                eq_refl ltac:(discriminate) eq_refl) as Hguard.
  split; [exact (Hguard 127) | exact (Hguard 128)].
Defined.

(** A refresh whose second attempt succeeds, then lookups: slot 5 is
    answered from the fetched map, slot 7 is not found. *)
Lemma refresh_then_lookup_witness :
  validatorSyncOngoing (sample.idleRelay None) = false /\
  http_err (sample.netFlaky 1%nat) = None /\
  exists r' n' evs,
    updateValidatorsMap sample.netFlaky 0 (sample.idleRelay None) 96 1
      = (r', None, n', evs) /\
    (GetValidatorForSlot r' 5).1 = (sample.remoteValidator, None) /\
    (GetValidatorForSlot r' 7).1 = (zeroValidatorData, Some ErrValidatorNotFound).
Proof.
  split; [reflexivity|]. split; [reflexivity|].
  destruct (refresh_then_lookup sample.netFlaky 0 (sample.idleRelay None) 96 1 1%nat)
    as (r' & n' & evs & Hrun & Hlookup).
  - reflexivity.
  - simpl. lia.
  - intros j Hj. assert (j = O) as -> by lia. eexists. reflexivity.
  - reflexivity.
  - simpl. lia.
  - exists r', n', evs. split; [exact Hrun|].
    split; [rewrite (Hlookup 5) | rewrite (Hlookup 7)]; reflexivity.
Defined.

End MoreSamples.

Section MoreLoaderSamples.

(** A file whose second line does not decode. *)
Lemma PendingTxsFromFile_failure_witness :
  sample.PendingTxsFromFile (inr ["xx {b}"; "x !"; "xx {a}"])
    = inl "invalid character" /\
  exists before line after fromString txString,
    ["xx {b}"; "x !"; "xx {a}"] = before ++ line :: after /\
    forallb (backtest.lineAccepted sample.HexToAddress sample.UnmarshalJSON) before
      = true /\
    backtest.SplitN2 line = [fromString; txString] /\
    sample.UnmarshalJSON txString = inl "invalid character".
Proof.
  split; [reflexivity|].
  apply (PendingTxsFromFile_failure sample.HexToAddress sample.UnmarshalJSON
           ["xx {b}"; "x !"; "xx {a}"] "invalid character").
  reflexivity.
Defined.

End MoreLoaderSamples.

(* ===================================================================== *)
(** * Header retrieval, from the request on                               *)
(* ===================================================================== *)

Section HeaderFacts.
Import builder.

(** What [SendHTTPRequest] returns, by what happened to the request. *)
Lemma SendHTTPRequest_cases {A : Type} (dst0 : A) (x : exchange A) :
  match x with
  | NoAnswer err => SendHTTPRequest dst0 x = mkHTTPResult 0 (Some err) dst0
  | Answer status body =>
      (status = 204 /\ SendHTTPRequest dst0 x = mkHTTPResult status None dst0) \/
      (status <> 204 /\ 299 < status /\
       exists err, SendHTTPRequest dst0 x = mkHTTPResult status (Some err) dst0) \/
      (status <> 204 /\ status <= 299 /\
       match body with
       | BodyLost err | BodyUndecodable err =>
           SendHTTPRequest dst0 x = mkHTTPResult status (Some err) dst0
       | BodyDecoded dst =>
           SendHTTPRequest dst0 x = mkHTTPResult status None dst
       end)
  end.
Proof.
  destruct x as [err | status body]; [reflexivity|].
  unfold SendHTTPRequest, http_StatusNoContent.
  destruct (Z.eqb_spec status 204) as [Hnc | Hnc]; [left; auto|].
  destruct (Z.ltb_spec 299 status) as [Hhigh | Hlow].
  - right. left. eauto.
  - right. right. split; [exact Hnc|]. split; [exact Hlow|].
    destruct body; reflexivity.
Qed.

(** C6 (amended): [GetHeader] returns an error exactly when
    [SendHTTPRequest] returns one, and it wraps that error.  This is the case
    when the request fails in transport, and also when an answer has a
    status code above 299 or when the body of an answer, other than a 204,
    is lost or does not decode.  An answer that is a 204, and an answer up
    to 299 whose body decodes to a payload that is invalid, of value zero or
    with the transactions root of the empty list, make it return success
    without reporting a received bid; a bid is reported only for a decoded
    payload for which none of these holds. *)
Theorem GetHeader_error_iff_request_error (r : RemoteRelay) (slot : Z)
    (parentHashHex pubkey : string) (dst0 : GetHeaderResponse)
    (x : exchange GetHeaderResponse) :
  let out := GetHeader r slot parentHashHex pubkey (SendHTTPRequest dst0 x) in
  (is_Some out.1 <-> is_Some (http_err (SendHTTPRequest dst0 x))) /\
  (forall err, http_err (SendHTTPRequest dst0 x) = Some err ->
     out.1 = Some (ErrGetHeaderRequest (endpoint r) slot parentHashHex pubkey err)) /\
  (is_Some out.1 <->
   match x with
   | NoAnswer _ => True
   | Answer status body =>
       status <> 204 /\
       (299 < status \/
        match body with BodyDecoded _ => False | _ => True end)
   end) /\
  (transportFailed x = true -> is_Some out.1) /\
  (forall status body,
     x = Answer status body -> status = 204 ->
     out.1 = None /\ ~ In (EvLog "debug" "bid received") out.2) /\
  (forall status payload,
     x = Answer status (BodyDecoded payload) -> status <= 299 ->
     out.1 = None /\
     (In (EvLog "debug" "bid received") out.2 <->
      status <> 204 /\
      hdr_IsInvalid payload = false /\
      hdr_Value payload <> 0 /\
      hdr_TransactionsRoot payload <> emptyListTxRoot)).
Proof.
  cbv zeta.
  pose proof (GetHeader_outcome r slot parentHashHex pubkey (SendHTTPRequest dst0 x))
    as Hout.
  cbv zeta in Hout. destruct Hout as (Herr & Hwrap & Hquiet & Hbid).
  pose proof (SendHTTPRequest_cases dst0 x) as Hcases.
  split; [exact Herr|]. split; [exact Hwrap|].
  assert (Hnone : http_err (SendHTTPRequest dst0 x) = None ->
            (GetHeader r slot parentHashHex pubkey (SendHTTPRequest dst0 x)).1 = None).
  { intros Hno.
    destruct (GetHeader r slot parentHashHex pubkey (SendHTTPRequest dst0 x)).1
      as [e|] eqn:Hres; [|reflexivity].
    destruct Herr as [Hto _]. destruct (Hto (ex_intro _ e eq_refl)) as [e' He'].
    congruence. }
  split; [|split; [|split]].
  - rewrite Herr. destruct x as [err | status body].
    + rewrite Hcases. simpl. split; eauto.
    + destruct Hcases as [[Hnc Hres] | [(Hnc & Hhigh & err & Hres)
                                       | (Hnc & Hlow & Hres)]].
      * rewrite Hres. simpl. split; [intros [e He]; discriminate|].
        intros [Hne _]. contradiction.
      * rewrite Hres. simpl. split; eauto.
      * destruct body as [err | err | dst]; rewrite Hres; simpl.
        -- split; eauto.
        -- split; eauto.
        -- split; [intros [e He]; discriminate|]. intros [_ [Hhigh | []]]. lia.
  - intros Hfail. apply Herr. destruct x as [err | status body].
    + rewrite Hcases. simpl. eauto.
    + destruct body as [err | err | dst]; simpl in Hfail; try discriminate.
      destruct Hcases as [[Hnc Hres] | [(Hnc & Hhigh & err' & Hres)
                                       | (Hnc & Hlow & Hres)]].
      * subst status. discriminate.
      * rewrite Hres. simpl. eauto.
      * rewrite Hres. simpl. eauto.
  - intros status body -> ->.
    destruct Hcases as [[_ Hres] | [(Hnc & _) | (Hnc & _)]]; try contradiction.
    assert (Hno : http_err (SendHTTPRequest dst0 (Answer 204 body)) = None)
      by (rewrite Hres; reflexivity).
    split; [exact (Hnone Hno)|].
    apply (Hquiet Hno). left. rewrite Hres. reflexivity.
  - intros status payload -> Hlow.
    destruct Hcases as [[Hnc Hres] | [(Hnc & Hhigh & _) | (Hnc & _ & Hres)]];
      [| lia |].
    + assert (Hno : http_err (SendHTTPRequest dst0 (Answer status (BodyDecoded payload)))
                    = None) by (rewrite Hres; reflexivity).
      split; [exact (Hnone Hno)|]. rewrite Hbid, Hres. simpl.
      split; [intros (_ & Hne & _) | intros (Hne & _)]; contradiction.
    + assert (Hno : http_err (SendHTTPRequest dst0 (Answer status (BodyDecoded payload)))
                    = None) by (rewrite Hres; reflexivity).
      split; [exact (Hnone Hno)|]. rewrite Hbid, Hres. simpl. tauto.
Qed.

(** C6, as stated, fails on an answer whose body does not decode: the
    request reached the relay and was answered with the status 200, no
    transport failed, and [GetHeader] returns an error. *)
Lemma GetHeader_fails_on_undecodable_answer :
  let x := Answer 200 (BodyUndecodable (ErrExternal "could not unmarshal response")) in
  let dst0 := mkGetHeaderResponse false 0 "" "" "" in
  let out := GetHeader (sample.idleRelay None) 1 "0xparent" "0xpubkey"
               (SendHTTPRequest dst0 x) in
  transportFailed x = false /\
  out.1 = Some (ErrGetHeaderRequest "http://relay" 1 "0xparent" "0xpubkey"
                  (ErrExternal "could not unmarshal response")) /\
  ~ (is_Some out.1 <-> transportFailed x = true).
Proof.
  cbv zeta. split; [reflexivity|]. split; [reflexivity|].
  intros [Hto _]. discriminate Hto. eexists. reflexivity.
Qed.

End HeaderFacts.

(* ===================================================================== *)
(** * The fixture, from the bytes of the file                             *)
(* ===================================================================== *)

Section ScannerFacts.
Import backtest.

Lemma rawLines_cons (c : ascii) (rest : string) : rawLines (String c rest) <> [].
Proof.
  simpl. destruct (Ascii.eqb c newline); [discriminate|].
  destruct (rawLines rest); discriminate.
Qed.

(** After a file that ends in a newline, the lines of what follows are
    lines of their own. *)
Lemma rawLines_app (first second : string) :
  endsWithNewline first = true ->
  rawLines (String.append first second) = rawLines first ++ rawLines second.
Proof.
  induction first as [|c rest IH]; intros Hend; [reflexivity|].
  destruct rest as [|c' rest'].
  - simpl in Hend. simpl. rewrite Hend. reflexivity.
  - change (endsWithNewline (String c (String c' rest')))
      with (endsWithNewline (String c' rest')) in Hend.
    specialize (IH Hend).
    change (String.append (String c (String c' rest')) second)
      with (String c (String.append (String c' rest') second)).
    change (rawLines (String c (String.append (String c' rest') second)))
      with (if Ascii.eqb c newline
            then EmptyString :: rawLines (String.append (String c' rest') second)
            else match rawLines (String.append (String c' rest') second) with
                 | [] => [String c EmptyString]
                 | line :: lines => String c line :: lines
                 end).
    change (rawLines (String c (String c' rest')))
      with (if Ascii.eqb c newline
            then EmptyString :: rawLines (String c' rest')
            else match rawLines (String c' rest') with
                 | [] => [String c EmptyString]
                 | line :: lines => String c line :: lines
                 end).
    rewrite IH. pose proof (rawLines_cons c' rest') as Hne.
    destruct (Ascii.eqb c newline); [reflexivity|].
    destruct (rawLines (String c' rest')) as [|line lines]; [contradiction|].
    reflexivity.
Qed.

Lemma yieldedTokens_app (before after : list string) :
  forallb (fun line => negb (tooLong line)) before = true ->
  yieldedTokens (before ++ after) = yieldedTokens before ++ yieldedTokens after.
Proof.
  induction before as [|line before IH]; simpl; [reflexivity|].
  intros Hshort. apply andb_true_iff in Hshort as [Hline Hrest].
  destruct (tooLong line); [discriminate|]. simpl. rewrite (IH Hrest). reflexivity.
Qed.

(** The scanner hands out a prefix of the lines: all of them when none is
    too long, and otherwise those before the first that is. *)
Lemma yieldedTokens_prefix (lines : list string) :
  exists kept rest,
    lines = kept ++ rest /\
    yieldedTokens lines = map dropCR kept /\
    forallb (fun line => negb (tooLong line)) kept = true /\
    match rest with
    | [] => True
    | line :: _ => tooLong line = true
    end.
Proof.
  induction lines as [|line lines (kept & rest & Hlines & Hyield & Hshort & Hrest)].
  - exists [], []. repeat split.
  - simpl. destruct (tooLong line) eqn:Hlong.
    + exists [], (line :: lines). repeat split. exact Hlong.
    + exists (line :: kept), rest. subst lines. simpl.
      rewrite Hyield, Hlong, Hshort. repeat split. exact Hrest.
Qed.

End ScannerFacts.

Section ContentFacts.
Import backtest.
Context {Address : Type} `{Countable Address}.
Context {Transaction error : Type}.
Context (HexToAddress : string -> Address).
Context (UnmarshalJSON : string -> error + Transaction).

Local Abbreviation txsOfSender := (txsOfSender HexToAddress UnmarshalJSON).
Local Abbreviation PendingTxsFromFileContent :=
  (PendingTxsFromFileContent HexToAddress UnmarshalJSON).

(** X16: in the map that [PendingTxsFromFile] returns for a file, a sender
    is a key exactly when some line that the scanner hands out carries a
    transaction of it; no key holds an empty list, and the list of a key is
    the sender's transactions in the order of those lines.  The lines handed
    out are the lines of the file, a trailing carriage return cut, up to the
    first line of 65536 bytes or more: that line and all that follow it
    leave no trace in the map. *)
Theorem PendingTxsFromFileContent_senders (content : string)
    (result : gmap Address (list Transaction)) :
  PendingTxsFromFileContent (inr content) = inr result ->
  (exists kept rest,
     rawLines content = kept ++ rest /\
     scannedLines content = map dropCR kept /\
     forallb (fun line => negb (tooLong line)) kept = true /\
     match rest with [] => True | line :: _ => tooLong line = true end) /\
  forall a,
    (result !! a = None <-> txsOfSender a (scannedLines content) = []) /\
    (forall txs, result !! a = Some txs ->
       txs = txsOfSender a (scannedLines content) /\ txs <> []).
Proof.
  unfold backtest.PendingTxsFromFileContent. intros Hload.
  split; [apply yieldedTokens_prefix|].
  apply (PendingTxsFromFile_senders HexToAddress UnmarshalJSON _ _ Hload).
Qed.

(** X17: a transaction is in the list of a sender exactly when some line
    that the scanner hands out for the file (a line before the first one of
    65536 bytes or more, its trailing carriage return cut) splits into a
    first field that [HexToAddress] takes to that sender and a second field
    that decodes to the transaction. *)
Theorem PendingTxsFromFileContent_membership (content : string)
    (result : gmap Address (list Transaction)) :
  PendingTxsFromFileContent (inr content) = inr result ->
  forall a tx,
    (exists txs, result !! a = Some txs /\ In tx txs) <->
    (exists line fromString txString,
       In line (scannedLines content) /\
       SplitN2 line = [fromString; txString] /\
       HexToAddress fromString = a /\
       UnmarshalJSON txString = inr tx).
Proof.
  unfold backtest.PendingTxsFromFileContent. intros Hload.
  apply (PendingTxsFromFile_membership HexToAddress UnmarshalJSON _ _ Hload).
Qed.

(** X18: when a file that ends in a newline (or is empty) and has no line of
    65536 bytes or more loads, and a second file loads, then the first
    followed by the second loads, and the list of every sender is its list
    from the first followed by its list from the second. *)
Theorem PendingTxsFromFileContent_concat (first second : string)
    (result1 result2 : gmap Address (list Transaction)) :
  endsWithNewline first = true ->
  forallb (fun line => negb (tooLong line)) (rawLines first) = true ->
  PendingTxsFromFileContent (inr first) = inr result1 ->
  PendingTxsFromFileContent (inr second) = inr result2 ->
  exists result,
    PendingTxsFromFileContent (inr (String.append first second)) = inr result /\
    forall a,
      default [] (result !! a)
        = default [] (result1 !! a) ++ default [] (result2 !! a).
Proof.
  unfold backtest.PendingTxsFromFileContent, scannedLines.
  intros Hend Hshort Hfirst Hsecond.
  rewrite (rawLines_app first second Hend), (yieldedTokens_app _ _ Hshort).
  apply (PendingTxsFromFile_concat HexToAddress UnmarshalJSON _ _ _ _
           Hfirst Hsecond).
Qed.

End ContentFacts.

Section ContentSamples.
Import backtest.

(** C10 (the code departs from it): a file whose first line has 65536 bytes
    and whose second line splits in two and does not decode.  The scanner
    stops at the first line, its error is never read, and
    [PendingTxsFromFile] returns an empty map and no error, where the claim
    has it return the error of the second line. *)
Theorem PendingTxsFromFile_long_line_hides_error :
  rawLines sample.hiddenErrorFile = [sample.longLine; "x !"] /\
  N.of_nat (String.length sample.longLine) = 65536%N /\
  tooLong sample.longLine = true /\
  SplitN2 "x !" = ["x"; "!"] /\
  sample.UnmarshalJSON "!" = inl "invalid character" /\
  scannedLines sample.hiddenErrorFile = [] /\
  sample.PendingTxsFromFileContent (inr sample.hiddenErrorFile) = inr ∅ /\
  sample.PendingTxsFromFile (inr (rawLines sample.hiddenErrorFile))
    = inl "invalid character".
Proof.
  repeat split; vm_compute; reflexivity.
Qed.

(** The first sample file: sender 2 is the only key. *)
Lemma PendingTxsFromFileContent_senders_witness :
  sample.PendingTxsFromFileContent (inr sample.contentOne) = inr sample.loadedOne /\
  scannedLines sample.contentOne = sample.fileOne /\
  (sample.loadedOne !! 1 = None <->
   backtest.txsOfSender sample.HexToAddress sample.UnmarshalJSON 1
     (scannedLines sample.contentOne) = []) /\
  (forall txs, sample.loadedOne !! 2 = Some txs ->
     txs = backtest.txsOfSender sample.HexToAddress sample.UnmarshalJSON 2
             (scannedLines sample.contentOne) /\
     txs <> []).
Proof.
  split; [reflexivity|]. split; [reflexivity|].
  destruct (PendingTxsFromFileContent_senders sample.HexToAddress
              sample.UnmarshalJSON sample.contentOne sample.loadedOne eq_refl)
    as [_ Hkeys].
  split; [apply (Hkeys 1) | apply (Hkeys 2)].
Defined.

(** The first sample file: the transaction of its last line. *)
Lemma PendingTxsFromFileContent_membership_witness :
  sample.PendingTxsFromFileContent (inr sample.contentOne) = inr sample.loadedOne /\
  exists txs, sample.loadedOne !! 2 = Some txs /\ In "{a}" txs.
Proof.
  split; [reflexivity|].
  apply (PendingTxsFromFileContent_membership sample.HexToAddress
           sample.UnmarshalJSON sample.contentOne sample.loadedOne eq_refl 2 "{a}").
  exists "xx {a}", "xx", "{a}". repeat split; try reflexivity.
  simpl. auto.
Defined.

(** The two sample files, one after the other. *)
Lemma PendingTxsFromFileContent_concat_witness :
  endsWithNewline sample.contentOne = true /\
  forallb (fun line => negb (tooLong line)) (rawLines sample.contentOne) = true /\
  sample.PendingTxsFromFileContent (inr sample.contentOne) = inr sample.loadedOne /\
  sample.PendingTxsFromFileContent (inr sample.contentTwo) = inr sample.loadedTwo /\
  exists result,
    sample.PendingTxsFromFileContent
      (inr (String.append sample.contentOne sample.contentTwo)) = inr result /\
    default [] (result !! 2) = ["{b}"; "{a}"; "{d}"].
Proof.
  split; [reflexivity|]. split; [reflexivity|].
  split; [reflexivity|]. split; [reflexivity|].
  destruct (PendingTxsFromFileContent_concat sample.HexToAddress
              sample.UnmarshalJSON sample.contentOne sample.contentTwo
              sample.loadedOne sample.loadedTwo
              eq_refl eq_refl eq_refl eq_refl) as (result & Hload & Hlists).
  exists result. split; [exact Hload|]. rewrite (Hlists 2). reflexivity.
Defined.

End ContentSamples.

Section InterruptSample.
Import miner supply.

(** With the interrupt raised the sample supply is drained within five
    passes, its two transactions are committed and no bundle is used. *)
Lemma failing_bundles_leave_none_used_witness :
  (forall env bundle, is_Some (commitBundle env bundle tt true).2) /\
  wellFormed bundlesFirst /\
  exists envDiff' orders' calls,
    Peek orders' = None /\
    supply.mergeOrdersIntoEnvDiff 5 (theBuilder true) [] bundlesFirst
      = Some (envDiff', orders', [], calls).
Proof.
  assert (Hfail : forall env bundle, is_Some (commitBundle env bundle tt true).2).
  { intros env bundle. eexists. reflexivity. }
  split; [exact Hfail|]. split; [exact bundlesFirst_wellFormed|].
  destruct (failing_bundles_leave_none_used Peek Shift Pop commitTx commitBundle
              (theBuilder true) [] bundlesFirst Hfail) as [_ Hreturns].
  destruct (Hreturns remaining wellFormed) as (envDiff' & orders' & calls & Hpeek & Hrun).
  - exact bundlesFirst_wellFormed.
  - intros s Hs. split; [apply Shift_wellFormed | apply Pop_wellFormed]; exact Hs.
  - intros s o Hs Hp. split; [|split].
    + unfold Peek in Hp. unfold wellFormed in Hs.
      destruct (heads s) as [|h rest]; [discriminate|].
      injection Hp as <-. apply Forall_cons in Hs as [Hh _]. exact Hh.
    + apply (Shift_consumes s o Hp).
    + apply (Pop_consumes s o Hp).
  - intros env tx v. apply commitTx_disposition.
  - exists envDiff', orders', calls. split; [exact Hpeek|].
    apply Hrun. vm_compute. lia.
Defined.

End InterruptSample.
